(** * vspd webapi helpers: request validators

    A shallow embedding of [webapi/helpers.go] of vspd (the Decred voting
    service provider) together with the properties its specification states
    about it.

    Conventions.
    - Go's [error] interface values are the inductive type [error]; a nil
      error is [None], so a function returning [error] returns
      [option error].
    - Machine integers are [Z] with the wrap-around of each fixed-width
      operation written out ([uint32_add]).
    - A Go [map[string]string] is a [gmap string string]; a [range] loop
      over it visits its entries in an order the runtime picks, which is any
      list [l] with [range_order m l].  The loops are functions of the
      visited sequence.
    - Functions of other packages (dcrd, the Go standard library) are
      variables of a section; collaborator objects (the database, the dcrd
      client) are records of functions, and every call to one is recorded in
      a call log threaded through the [Eff] monad. *)

From Stdlib Require Import ZArith String Ascii List Lia DecimalString.
From stdpp Require Import gmap strings list fin_maps.
Import ListNotations.

Local Open Scope string_scope.
Local Open Scope Z_scope.

(** ** Go errors and [fmt] verbs *)

(** The dynamic types an [error] value has in this package:
    [*errors.errorString] (what [errors.New] and a [fmt.Errorf] without
    [%w] return), [*fmt.wrapError] (a [fmt.Errorf] with one [%w]), and any
    other type a library or collaborator returns, kept as its type name and
    its text. *)
Inductive error : Type :=
| errorString (s : string)
| wrapError (msg : string) (err : error)
| opaqueError (dynType msg : string).

(** The [Error() string] method. *)
Definition Error (e : error) : string :=
  match e with
  | errorString s => s
  | wrapError msg _ => msg
  | opaqueError _ msg => msg
  end.

(** [errors.Unwrap]. *)
Definition Unwrap (e : error) : option error :=
  match e with
  | wrapError _ err => Some err
  | _ => None
  end.

(** [err != nil]. *)
Definition notNil {A} (o : option A) : bool :=
  match o with Some _ => true | None => false end.

(** [errors.New(s)], also [fmt.Errorf(s)] when no operand is wrapped. *)
Definition errors_New (s : string) : error := errorString s.

(** [fmt.Errorf(prefix + "%w", err)]: the text is the prefix followed by
    [err.Error()], and [err] is what [Unwrap] returns. *)
Definition Errorf_w (prefix : string) (err : error) : error :=
  wrapError (prefix ++ Error err) err.

(** The verb [%d] on an integer. *)
Definition fmt_d (z : Z) : string := NilZero.string_of_int (Z.to_int z).

(** ** Fixed-width integers *)

Definition uint32_mod : Z := 2 ^ 32.
Definition uint16_mod : Z := 2 ^ 16.

(** The conversion [uint32(x)]. *)
Definition to_uint32 (x : Z) : Z := x mod uint32_mod.

(** [a + b] on [uint32] operands. *)
Definition uint32_add (a b : Z) : Z := (a + b) mod uint32_mod.

(** ** Collaborators and the call log *)

Inductive Call : Type :=
| ExistsLiveTicketCall (txid : string)
| AltSignAddrDataCall (hash : string).

(** A computation that may call collaborators: it maps the log of the calls
    made so far to its result and the extended log. *)
Definition Eff (A : Type) : Type := list Call -> A * list Call.

Definition ret {A} (a : A) : Eff A := fun log => (a, log).

Definition bind {A B} (m : Eff A) (k : A -> Eff B) : Eff B :=
  fun log => let (a, log') := m log in k a log'.

Notation "'let*' x ':=' m 'in' k" := (bind m (fun x => k))
  (at level 10, x name, m at level 100, k at level 200).

(** Modelled from the spec: the node query capability of section 6 ("does a
    live ticket with this identifier currently exist" gives a boolean or an
    error).  It is the [Node] interface of the package, which [canTicketVote]
    receives as [dcrdClient]; only the method used here is kept. *)
Record Node : Type := {
  ExistsLiveTicket : string -> bool * option error
}.

(** Modelled from the spec: the alternate signing address record of section
    3, owned by the database package. *)
Record AltSignAddrData : Type := {
  AltSignAddr : string
}.

(** Modelled from the spec: the record-lookup capability of section 6
    ("fetch the alternate signing address record for this ticket hash" gives
    the record, or nil when none is registered, or an error).  It is
    [*database.VspDatabase], which [validateSignature] receives as [db]; its
    method [AltSignAddrData] is the field [AltSignAddrData_of], the record
    type having the name already. *)
Record VspDatabase : Type := {
  AltSignAddrData_of : string -> option AltSignAddrData * option error
}.

Definition call_ExistsLiveTicket (dcrdClient : Node) (txid : string)
  : Eff (bool * option error) :=
  fun log => (ExistsLiveTicket dcrdClient txid, (log ++ [ExistsLiveTicketCall txid])%list).

Definition call_AltSignAddrData (db : VspDatabase) (hash : string)
  : Eff (option AltSignAddrData * option error) :=
  fun log => (AltSignAddrData_of db hash, (log ++ [AltSignAddrDataCall hash])%list).

(** ** Types of dcrd used by the helpers *)

(** [chaincfg.Choice], [chaincfg.Vote] and [chaincfg.ConsensusDeployment]. *)
Record Choice : Type := {
  Choice_Id : string;
  Choice_Description : string;
  Choice_Bits : Z;
  Choice_IsAbstain : bool;
  Choice_IsNo : bool
}.

Record Vote : Type := {
  Vote_Id : string;
  Vote_Description : string;
  Vote_Mask : Z;
  Vote_Choices : list Choice
}.

Record ConsensusDeployment : Type := {
  Deployment_Vote : Vote;
  Deployment_StartTime : Z;
  Deployment_ExpireTime : Z
}.

(** The fields of [chaincfg.Params] the helpers read.  [TicketMaturity] is a
    [uint16] and [TicketExpiry] a [uint32]; [Deployments] is keyed by the
    [uint32] vote version. *)
Record Params : Type := {
  Deployments : gmap N (list ConsensusDeployment);
  TicketMaturity : Z;
  TicketExpiry : Z
}.

(** The field values are in the range of their Go types. *)
Definition Params_wf (p : Params) : Prop :=
  0 <= TicketMaturity p < uint16_mod /\ 0 <= TicketExpiry p < uint32_mod.

(** [dcrdtypes.TxRawResult]: [Confirmations] is an [int64]. *)
Record TxRawResult : Type := {
  Txid : string;
  Confirmations : Z
}.

(** [wire.TxOut] and [wire.MsgTx]. *)
Record TxOut : Type := {
  TxOut_Value : Z;
  TxOut_Version : Z;
  TxOut_PkScript : list Byte.byte
}.

Record MsgTx : Type := {
  MsgTx_Version : Z;
  MsgTx_TxOut : list TxOut;
  MsgTx_LockTime : Z;
  MsgTx_Expiry : Z
}.

(** [secp256k1.PubKeyBytesLenCompressed] and [chainhash.MaxHashStringSize]. *)
Definition PubKeyBytesLenCompressed : nat := 33.
Definition MaxHashStringSize : nat := 64.

(** ** Iteration over a Go map *)

(** [l] is a sequence in which [for k, v := range m] may visit [m]: every
    entry once, in any order. *)
Definition range_order {K V} `{Countable K} (m : gmap K V) (l : list (K * V)) : Prop :=
  l ≡ₚ map_to_list m.

(** ** The helpers *)

(** [currentVoteVersion], on the sequence in which the [range] loop visits
    [params.Deployments]; [latestVersion] starts at zero. *)
Definition currentVoteVersion (deployments : list (N * list ConsensusDeployment)) : N :=
  fold_left (fun latestVersion entry =>
               if (latestVersion <? fst entry)%N then fst entry else latestVersion)
    deployments 0%N.

(** [canTicketVote]: whether a ticket can vote at some point in the future,
    i.e. is immature or live. *)
Definition canTicketVote (rawTx : TxRawResult) (dcrdClient : Node)
    (netParams : Params) : Eff (bool * option error) :=
  if Confirmations rawTx >?
       uint32_add (to_uint32 (TicketMaturity netParams)) (TicketExpiry netParams) + 1
  then ret (false, None)
  else if Confirmations rawTx <=? TicketMaturity netParams
  then ret (true, None)
  else
    let* r := call_ExistsLiveTicket dcrdClient (Txid rawTx) in
    match snd r with
    | Some err => ret (false, Some (Errorf_w "dcrd.ExistsLiveTicket error: " err))
    | None => ret (fst r, None)
    end.

Section Helpers.

(** [strconv.Quote], the verb [%q] on a string. *)
Variable Quote : string -> string.

(** [hex.DecodeString]. *)
Variable DecodeString : string -> list Byte.byte * option error.

(** [chainhash.NewHashFromStr]; the hash is 32 bytes. *)
Variable NewHashFromStr : string -> option (list Byte.byte) * option error.

(** [dcrutil.VerifyMessage address signature message params]. *)
Variable VerifyMessage : string -> string -> string -> Params -> option error.

(** [stake.IsSStx]. *)
Variable IsSStx : MsgTx -> bool.

(** The innermost loop of [validConsensusVoteChoices]: is [choice] the id
    of one of the choices? *)
Fixpoint choiceLoop (choices : list Choice) (choice : string) : bool :=
  match choices with
  | [] => false
  | c :: rest =>
      if String.eqb (Choice_Id c) choice then true else choiceLoop rest choice
  end.

(** The loop over [params.Deployments[voteVersion]] for one submitted
    pair: [None] stands for [continue agendaLoop]. *)
Fixpoint deploymentLoop (deployments : list ConsensusDeployment)
    (voteVersion : N) (agenda choice : string) : option error :=
  match deployments with
  | [] =>
      Some (errors_New ("agenda " ++ Quote agenda ++ " not found for vote version "
                          ++ fmt_d (Z.of_N voteVersion)))
  | v :: rest =>
      if String.eqb (Vote_Id (Deployment_Vote v)) agenda then
        if choiceLoop (Vote_Choices (Deployment_Vote v)) choice then None
        else Some (errors_New ("choice " ++ Quote choice ++ " not found for agenda "
                                 ++ Quote agenda))
      else deploymentLoop rest voteVersion agenda choice
  end.

(** [params.Deployments[voteVersion]]: a missing key gives the nil slice. *)
Definition deploymentsOf (params : Params) (voteVersion : N)
  : list ConsensusDeployment :=
  default [] (Deployments params !! voteVersion).

(** [validConsensusVoteChoices], on the sequence in which the [range] loop
    visits [voteChoices]. *)
Fixpoint validConsensusVoteChoices (params : Params) (voteVersion : N)
    (voteChoices : list (string * string)) : option error :=
  match voteChoices with
  | [] => None
  | (agenda, choice) :: rest =>
      match deploymentLoop (deploymentsOf params voteVersion) voteVersion agenda choice with
      | Some err => Some err
      | None => validConsensusVoteChoices params voteVersion rest
      end
  end.

(** [validPolicyOption]. *)
Definition validPolicyOption (policy : string) : option error :=
  if String.eqb policy "yes" || String.eqb policy "no" || String.eqb policy "abstain"
     || String.eqb policy "invalid" || String.eqb policy EmptyString
  then None
  else Some (errors_New (Quote policy ++ " is not a valid policy option")).

(** [validTreasuryPolicy], on the visited sequence of [policy]. *)
Fixpoint validTreasuryPolicy (policy : list (string * string)) : option error :=
  match policy with
  | [] => None
  | (key, choice) :: rest =>
      let (pikey, err) := DecodeString key in
      match err with
      | Some e =>
          Some (Errorf_w ("error decoding treasury key " ++ Quote key ++ ": ") e)
      | None =>
          if negb (Nat.eqb (List.length pikey) PubKeyBytesLenCompressed) then
            Some (errors_New ("treasury key " ++ Quote key ++ " is not 33 bytes"))
          else
            match validPolicyOption choice with
            | Some e => Some e
            | None => validTreasuryPolicy rest
            end
      end
  end.

(** [validTSpendPolicy], on the visited sequence of [policy]. *)
Fixpoint validTSpendPolicy (policy : list (string * string)) : option error :=
  match policy with
  | [] => None
  | (hash, choice) :: rest =>
      if negb (Nat.eqb (String.length hash) MaxHashStringSize) then
        Some (errors_New ("wrong tspend hash length, expected "
                            ++ fmt_d (Z.of_nat MaxHashStringSize) ++ " got "
                            ++ fmt_d (Z.of_nat (String.length hash))))
      else
        match snd (NewHashFromStr hash) with
        | Some e =>
            Some (Errorf_w ("error decoding tspend hash " ++ Quote hash ++ ": ") e)
        | None =>
            match validPolicyOption choice with
            | Some e => Some e
            | None => validTSpendPolicy rest
            end
        end
  end.

(** [validateSignature]. *)
Definition validateSignature (hash commitmentAddress signature message : string)
    (db : VspDatabase) (params : Params) : Eff (option error) :=
  let firstErr := VerifyMessage commitmentAddress signature message params in
  if notNil firstErr then
    let* r := call_AltSignAddrData db hash in
    match snd r with
    | Some err => ret (Some (Errorf_w "db.AltSignAddrData failed: " err))
    | None =>
        if match fst r with
           | None => true
           | Some altSigData =>
               notNil (VerifyMessage (AltSignAddr altSigData) signature message params)
           end
        then ret (Some (errors_New "bad signature"))
        else ret None
    end
  else ret None.

(** [isValidTicket]. *)
Definition isValidTicket (tx : MsgTx) : option error :=
  if negb (IsSStx tx) then Some (errors_New "invalid transaction - not sstx")
  else if negb (Nat.eqb (List.length (MsgTx_TxOut tx)) 3) then
    Some (errors_New ("invalid transaction - expected 3 outputs, got "
                        ++ fmt_d (Z.of_nat (List.length (MsgTx_TxOut tx)))))
  else None.

(** [validateTicketHash]. *)
Definition validateTicketHash (hash : string) : option error :=
  if negb (Nat.eqb (String.length hash) MaxHashStringSize) then
    Some (errors_New ("incorrect hash length: got "
                        ++ fmt_d (Z.of_nat (String.length hash)) ++ ", expected "
                        ++ fmt_d (Z.of_nat MaxHashStringSize)))
  else
    match snd (NewHashFromStr hash) with
    | Some e => Some (Errorf_w "invalid hash: " e)
    | None => None
    end.

End Helpers.

(** ** Vocabulary of the specification *)

(** The agenda identifiers of a deployment list, in order. *)
Definition agendaIds (deployments : list ConsensusDeployment) : list string :=
  map (fun d => Vote_Id (Deployment_Vote d)) deployments.

(** [choice] is the identifier of one of the choices of deployment [d]. *)
Definition choiceOf (d : ConsensusDeployment) (choice : string) : Prop :=
  exists c, In c (Vote_Choices (Deployment_Vote d)) /\ Choice_Id c = choice.

(** Some agenda of the list has identifier [agenda]. *)
Definition agendaKnown (deployments : list ConsensusDeployment) (agenda : string) : Prop :=
  exists d, In d deployments /\ Vote_Id (Deployment_Vote d) = agenda.

(** The pair appears in the agenda/choice tables. *)
Definition pairInTables (deployments : list ConsensusDeployment)
    (agenda choice : string) : Prop :=
  exists d, In d deployments /\ Vote_Id (Deployment_Vote d) = agenda /\ choiceOf d choice.

(** The enumerated policy values. *)
Definition policyOptions : list string := ["yes"; "no"; "abstain"; "invalid"; EmptyString].

(** Lower-casing of ASCII letters, to speak about the casing of a value. *)
Definition lowerAscii (c : ascii) : ascii :=
  let n := N_of_ascii c in
  if (N.leb 65 n && N.leb n 90)%bool then ascii_of_N (n + 32) else c.

Fixpoint toLower (s : string) : string :=
  match s with
  | EmptyString => EmptyString
  | String c rest => String (lowerAscii c) (toLower rest)
  end.

(** A treasury key passes: it decodes without error to 33 bytes. *)
Definition treasuryKeyOk (DecodeString : string -> list Byte.byte * option error)
    (key : string) : Prop :=
  snd (DecodeString key) = None /\
  List.length (fst (DecodeString key)) = PubKeyBytesLenCompressed.

(** A hash string passes: it has 64 characters and parses without error. *)
Definition hashStringOk
    (NewHashFromStr : string -> option (list Byte.byte) * option error)
    (hash : string) : Prop :=
  String.length hash = MaxHashStringSize /\ snd (NewHashFromStr hash) = None.

Definition treasuryEntryOk (DecodeString : string -> list Byte.byte * option error)
    (entry : string * string) : Prop :=
  treasuryKeyOk DecodeString (fst entry) /\ In (snd entry) policyOptions.

Definition tspendEntryOk
    (NewHashFromStr : string -> option (list Byte.byte) * option error)
    (entry : string * string) : Prop :=
  hashStringOk NewHashFromStr (fst entry) /\ In (snd entry) policyOptions.

(** ** The loops as first-error searches

    Each of the three [range] loops runs a check on every visited entry and
    returns the first error; the bodies are named here so that the loops can
    be reasoned about through one lemma. *)

Fixpoint firstError {A} (check : A -> option error) (l : list A) : option error :=
  match l with
  | [] => None
  | x :: rest =>
      match check x with
      | Some err => Some err
      | None => firstError check rest
      end
  end.

(** The body of the loop of [validConsensusVoteChoices]. *)
Definition checkVoteChoice (Quote : string -> string) (params : Params)
    (voteVersion : N) (entry : string * string) : option error :=
  deploymentLoop Quote (deploymentsOf params voteVersion) voteVersion
    (fst entry) (snd entry).

(** The body of the loop of [validTreasuryPolicy]. *)
Definition checkTreasuryEntry (Quote : string -> string)
    (DecodeString : string -> list Byte.byte * option error)
    (entry : string * string) : option error :=
  match snd (DecodeString (fst entry)) with
  | Some e =>
      Some (Errorf_w ("error decoding treasury key " ++ Quote (fst entry) ++ ": ") e)
  | None =>
      if negb (Nat.eqb (List.length (fst (DecodeString (fst entry))))
                 PubKeyBytesLenCompressed)
      then Some (errors_New ("treasury key " ++ Quote (fst entry) ++ " is not 33 bytes"))
      else validPolicyOption Quote (snd entry)
  end.

(** The body of the loop of [validTSpendPolicy]. *)
Definition checkTSpendEntry (Quote : string -> string)
    (NewHashFromStr : string -> option (list Byte.byte) * option error)
    (entry : string * string) : option error :=
  if negb (Nat.eqb (String.length (fst entry)) MaxHashStringSize) then
    Some (errors_New ("wrong tspend hash length, expected "
                        ++ fmt_d (Z.of_nat MaxHashStringSize) ++ " got "
                        ++ fmt_d (Z.of_nat (String.length (fst entry)))))
  else
    match snd (NewHashFromStr (fst entry)) with
    | Some e =>
        Some (Errorf_w ("error decoding tspend hash " ++ Quote (fst entry) ++ ": ") e)
    | None => validPolicyOption Quote (snd entry)
    end.

(** ** Instances of the library functions, for the examples

    The theorems hold for every behaviour of the library functions; the
    examples run the helpers with the following ones. *)

(** Quoting of plain text (no quote, backslash or non-printable character),
    on which [strconv.Quote] only adds the surrounding quotes. *)
Definition plainQuote (s : string) : string :=
  String (ascii_of_nat 34) (s ++ String (ascii_of_nat 34) EmptyString).

Definition hexDigit (c : ascii) : option N :=
  let n := N_of_ascii c in
  if (N.leb 48 n && N.leb n 57)%bool then Some (n - 48)%N
  else if (N.leb 97 n && N.leb n 102)%bool then Some (n - 87)%N
  else if (N.leb 65 n && N.leb n 70)%bool then Some (n - 55)%N
  else None.

Definition InvalidByteError (c : ascii) : error :=
  opaqueError "hex.InvalidByteError"
    ("encoding/hex: invalid byte: " ++ String c EmptyString).

Definition ErrLength : error :=
  errorString "encoding/hex: odd length hex string".

(** Decoding of a hexadecimal string, two digits per byte, as
    [encoding/hex] does it: the bytes decoded before the first bad digit or
    the dangling last digit are returned with the error. *)
Fixpoint hexDecode (s : string) : list Byte.byte * option error :=
  match s with
  | EmptyString => ([], None)
  | String p EmptyString =>
      match hexDigit p with
      | None => ([], Some (InvalidByteError p))
      | Some _ => ([], Some ErrLength)
      end
  | String p (String q rest) =>
      match hexDigit p, hexDigit q with
      | None, _ => ([], Some (InvalidByteError p))
      | Some _, None => ([], Some (InvalidByteError q))
      | Some a, Some b =>
          let (bytes, err) := hexDecode rest in
          (byte_of_ascii (ascii_of_N (16 * a + b)) :: bytes, err)
      end
  end.

(** Parsing of a hash string: at most 64 characters, an odd length padded
    with a leading zero, the decoded bytes stored in reverse order in a
    32-byte hash. *)
Definition parseHash (s : string) : option (list Byte.byte) * option error :=
  if Nat.ltb MaxHashStringSize (String.length s) then
    (None, Some (errorString "max hash string length is 64 bytes"))
  else
    let src := if Nat.even (String.length s) then s else String "0" s in
    match hexDecode src with
    | (_, Some e) => (None, Some e)
    | (bytes, None) =>
        (Some (rev (repeat Byte.x00 (32 - List.length bytes) ++ bytes)%list), None)
    end.

(** A stand-in for signature verification: the signature of [message] under
    [address] is the text [address:message]. *)
Definition plainVerify (address signature message : string) (_ : Params)
  : option error :=
  if String.eqb signature (address ++ ":" ++ message) then None
  else Some (errorString "message not signed by address").

(** A stand-in for the stake-submission classification: the script of the
    first output starts with the stake-submission tag [0xba]. *)
Definition taggedSStx (tx : MsgTx) : bool :=
  match MsgTx_TxOut tx with
  | out :: _ =>
      match TxOut_PkScript out with
      | Byte.xba :: _ => true
      | _ => false
      end
  | [] => false
  end.

(** Data of the examples. *)
Definition exampleChoices : list Choice :=
  [ {| Choice_Id := "abstain"; Choice_Description := "abstain voting for change";
       Choice_Bits := 0; Choice_IsAbstain := true; Choice_IsNo := false |};
    {| Choice_Id := "no"; Choice_Description := "keep the existing rules";
       Choice_Bits := 2; Choice_IsAbstain := false; Choice_IsNo := true |};
    {| Choice_Id := "yes"; Choice_Description := "change to the new rules";
       Choice_Bits := 4; Choice_IsAbstain := false; Choice_IsNo := false |} ].

Definition exampleDeployment (id : string) (mask : Z) : ConsensusDeployment :=
  {| Deployment_Vote :=
       {| Vote_Id := id; Vote_Description := "an agenda"; Vote_Mask := mask;
          Vote_Choices := exampleChoices |};
     Deployment_StartTime := 0; Deployment_ExpireTime := 100 |}.

Definition exampleParams : Params :=
  {| Deployments :=
       {[ 10%N := [exampleDeployment "reverttreasurypolicy" 6;
                   exampleDeployment "changesubsidysplit" 24] ]};
     TicketMaturity := 256;
     TicketExpiry := 40960 |}.

Definition exampleOut (tag : Byte.byte) : TxOut :=
  {| TxOut_Value := 1000; TxOut_Version := 0; TxOut_PkScript := [tag; Byte.x76] |}.

Definition exampleTx (tag : Byte.byte) (outputs : nat) : MsgTx :=
  {| MsgTx_Version := 1; MsgTx_TxOut := repeat (exampleOut tag) outputs;
     MsgTx_LockTime := 0; MsgTx_Expiry := 0 |}.

Definition exampleDb (r : option AltSignAddrData * option error) : VspDatabase :=
  {| AltSignAddrData_of := fun _ => r |}.

Definition exampleNode (r : bool * option error) : Node :=
  {| ExistsLiveTicket := fun _ => r |}.

Definition examplePubKey : string :=
  "02a36b785d584555696b69d1b2bbeff4010332b301e3edd316d79438554cacb3e7".

Definition exampleHash : string :=
  "a36b785d584555696b69d1b2bbeff4010332b301e3edd316d79438554cacb3e7".

(** A submission with a valid pair, a pair with an unknown choice and a pair
    with an unknown agenda, and two of the orders in which it may be
    visited. *)
Definition exampleVotes : gmap string string :=
  <[ "changesubsidysplit" := "yes" ]>
    (<[ "reverttreasurypolicy" := "maybe" ]> {[ "blake3pow" := "yes" ]}).

Definition exampleOrder1 : list (string * string) :=
  [("changesubsidysplit", "yes"); ("reverttreasurypolicy", "maybe");
   ("blake3pow", "yes")].

Definition exampleOrder2 : list (string * string) :=
  [("blake3pow", "yes"); ("changesubsidysplit", "yes");
   ("reverttreasurypolicy", "maybe")].


(** Parameters in which two agendas of version 11 share an identifier; only
    the second has the choice "maybe". *)
Definition exampleShadowed : ConsensusDeployment :=
  {| Deployment_Vote :=
       {| Vote_Id := "changesubsidysplit"; Vote_Description := "an agenda";
          Vote_Mask := 24;
          Vote_Choices :=
            (exampleChoices ++
               [ {| Choice_Id := "maybe"; Choice_Description := "undecided";
                    Choice_Bits := 6; Choice_IsAbstain := false;
                    Choice_IsNo := false |} ])%list |};
     Deployment_StartTime := 0; Deployment_ExpireTime := 100 |}.

Definition exampleShadowParams : Params :=
  {| Deployments :=
       {[ 11%N := [exampleDeployment "changesubsidysplit" 6; exampleShadowed] ]};
     TicketMaturity := 16;
     TicketExpiry := 384 |}.

(** ** [decodeTransaction] *)

Section Decoding.

(** [hex.DecodeString]. *)
Variable DecodeString : string -> list Byte.byte * option error.

(** [wire.NewMsgTx()], the empty transaction that [FromBytes] fills. *)
Variable NewMsgTx : MsgTx.

(** [msgTx.FromBytes(b)]: the transaction as the call leaves it, and the
    error. *)
Variable FromBytes : MsgTx -> list Byte.byte -> MsgTx * option error.

(** [decodeTransaction]; the [*wire.MsgTx] result is [None] for nil. *)
Definition decodeTransaction (txHex : string) : option MsgTx * option error :=
  let (msgHex, err) := DecodeString txHex in
  match err with
  | Some e => (None, Some e)
  | None =>
      let (msgTx, err') := FromBytes NewMsgTx msgHex in
      match err' with
      | Some e => (None, Some e)
      | None => (Some msgTx, None)
      end
  end.

End Decoding.

(** Stand-ins for the examples: an empty transaction, and a deserialiser
    that reads the version from the first byte and one output per further
    byte, the byte being the tag of the output's script. *)
Definition emptyMsgTx : MsgTx :=
  {| MsgTx_Version := 1; MsgTx_TxOut := []; MsgTx_LockTime := 0; MsgTx_Expiry := 0 |}.

Definition plainFromBytes (tx : MsgTx) (bytes : list Byte.byte) : MsgTx * option error :=
  match bytes with
  | [] => (tx, Some (errorString "unexpected EOF"))
  | version :: tags =>
      ({| MsgTx_Version := Z.of_N (Byte.to_N version);
          MsgTx_TxOut := map exampleOut tags;
          MsgTx_LockTime := MsgTx_LockTime tx;
          MsgTx_Expiry := MsgTx_Expiry tx |}, None)
  end.

(** * Properties *)

(** ** General facts *)

Lemma log_grows (log : list Call) (c : Call) : (log ++ [c])%list <> log.
Proof.
  intros H. apply (f_equal (@List.length Call)) in H.
  rewrite List.length_app in H. simpl in H. lia.
Qed.

Lemma Errorf_w_Unwrap (prefix : string) (err : error) :
  Unwrap (Errorf_w prefix err) = Some err.
Proof. reflexivity. Qed.

Lemma Errorf_w_Error (prefix : string) (err : error) :
  Error (Errorf_w prefix err) = prefix ++ Error err.
Proof. reflexivity. Qed.

(** A wrapping error is never the error it wraps. *)
Lemma wrapError_neq_inner (err : error) (msg : string) : wrapError msg err <> err.
Proof.
  revert msg. induction err as [s | msg' err' IH | t m]; intros msg H;
    try discriminate.
  injection H as _ H. exact (IH _ H).
Qed.

(** ** [canTicketVote] *)

(** When the sum of maturity and expiry fits 32 bits, the threshold computed
    in [uint32] is the mathematical one. *)
Lemma threshold_no_wrap (p : Params) :
  Params_wf p -> TicketMaturity p + TicketExpiry p < uint32_mod ->
  uint32_add (to_uint32 (TicketMaturity p)) (TicketExpiry p) + 1
  = TicketMaturity p + TicketExpiry p + 1.
Proof.
  intros [HM HE] Hsum. unfold uint32_add, to_uint32, uint32_mod, uint16_mod in *.
  rewrite (Z.mod_small (TicketMaturity p)) by lia.
  rewrite Z.mod_small by lia. reflexivity.
Qed.

(** The three branches of [canTicketVote], on the threshold as computed. *)
Lemma canTicketVote_cases rawTx dcrdClient netParams log :
  let thr := uint32_add (to_uint32 (TicketMaturity netParams)) (TicketExpiry netParams) + 1 in
  (Confirmations rawTx > thr /\
     canTicketVote rawTx dcrdClient netParams log = ((false, None), log)) \/
  (Confirmations rawTx <= thr /\ Confirmations rawTx <= TicketMaturity netParams /\
     canTicketVote rawTx dcrdClient netParams log = ((true, None), log)) \/
  (Confirmations rawTx <= thr /\ TicketMaturity netParams < Confirmations rawTx /\
     canTicketVote rawTx dcrdClient netParams log =
       (match snd (ExistsLiveTicket dcrdClient (Txid rawTx)) with
        | Some err => (false, Some (Errorf_w "dcrd.ExistsLiveTicket error: " err))
        | None => (fst (ExistsLiveTicket dcrdClient (Txid rawTx)), None)
        end, (log ++ [ExistsLiveTicketCall (Txid rawTx)])%list)).
Proof.
  intros thr. unfold canTicketVote. fold thr.
  destruct (Z.gtb_spec (Confirmations rawTx) thr) as [Hgt | Hle].
  - left. split; [lia | reflexivity].
  - destruct (Z.leb_spec (Confirmations rawTx) (TicketMaturity netParams)) as [Him | Hmat].
    + right; left. repeat split; try lia.
    + right; right. repeat split; try lia.
      unfold bind, call_ExistsLiveTicket, ret.
      destruct (ExistsLiveTicket dcrdClient (Txid rawTx)) as [live [err|]]; reflexivity.
Qed.

(** The branches in terms of the mathematical threshold, when the sum of
    maturity and expiry fits 32 bits. *)
Lemma canTicketVote_decision rawTx dcrdClient netParams log :
  Params_wf netParams ->
  TicketMaturity netParams + TicketExpiry netParams < uint32_mod ->
  let c := Confirmations rawTx in
  let M := TicketMaturity netParams in
  let E := TicketExpiry netParams in
  (c > M + E + 1 ->
     canTicketVote rawTx dcrdClient netParams log = ((false, None), log)) /\
  (c <= M ->
     canTicketVote rawTx dcrdClient netParams log = ((true, None), log)) /\
  (M < c <= M + E + 1 ->
     snd (canTicketVote rawTx dcrdClient netParams log)
       = (log ++ [ExistsLiveTicketCall (Txid rawTx)])%list /\
     forall live, ExistsLiveTicket dcrdClient (Txid rawTx) = (live, None) ->
       fst (canTicketVote rawTx dcrdClient netParams log) = (live, None)).
Proof.
  intros Hwf Hsum c M E.
  pose proof (threshold_no_wrap netParams Hwf Hsum) as Hthr.
  pose proof (canTicketVote_cases rawTx dcrdClient netParams log) as Hc.
  cbv zeta in Hc. rewrite Hthr in Hc. fold c M E in Hc.
  destruct Hwf as [HM HE]. fold M in HM. fold E in HE.
  destruct Hc as [[H1 R] | [[H1 [H2 R]] | [H1 [H2 R]]]]; rewrite R; simpl;
    (split; [ | split ]); intros; try lia; try reflexivity.
  split; [reflexivity | ].
  intros live Hq. rewrite Hq. reflexivity.
Qed.

(** X1.  The three-way decision, for parameters whose maturity and expiry
    sum fits 32 bits: above [M+E+1] the answer is false and the node is not
    asked; at or below [M] the answer is true and the node is not asked; in
    between the node is asked once and a successful answer is returned. *)
Theorem canTicketVote_three_way rawTx dcrdClient netParams log :
  Params_wf netParams ->
  TicketMaturity netParams + TicketExpiry netParams < uint32_mod ->
  let c := Confirmations rawTx in
  let M := TicketMaturity netParams in
  let E := TicketExpiry netParams in
  (c > M + E + 1 ->
     canTicketVote rawTx dcrdClient netParams log = ((false, None), log)) /\
  (c <= M ->
     canTicketVote rawTx dcrdClient netParams log = ((true, None), log)) /\
  (M < c <= M + E + 1 ->
     snd (canTicketVote rawTx dcrdClient netParams log)
       = (log ++ [ExistsLiveTicketCall (Txid rawTx)])%list /\
     forall live, ExistsLiveTicket dcrdClient (Txid rawTx) = (live, None) ->
       fst (canTicketVote rawTx dcrdClient netParams log) = (live, None)).
Proof.
  intros Hwf Hsum. exact (canTicketVote_decision rawTx dcrdClient netParams log Hwf Hsum).
Qed.

(** C1.  The claim fails for parameters whose maturity and expiry sum does
    not fit 32 bits: with maturity 1 and expiry 4294967295 the threshold
    wraps to 1, and a ticket with 2 confirmations, which is inside the
    window [M < c <= M+E+1] where the node must be asked once, is answered
    false without asking the node. *)
Theorem canTicketVote_threshold_wraps :
  let netParams :=
    {| Deployments := ∅; TicketMaturity := 1; TicketExpiry := 4294967295 |} in
  let rawTx := {| Txid := exampleHash; Confirmations := 2 |} in
  Params_wf netParams /\
  (TicketMaturity netParams < Confirmations rawTx
     <= TicketMaturity netParams + TicketExpiry netParams + 1) /\
  forall dcrdClient log,
    canTicketVote rawTx dcrdClient netParams log = ((false, None), log).
Proof.
  cbv zeta. split; [ | split ].
  - unfold Params_wf, uint16_mod, uint32_mod. simpl. lia.
  - simpl. lia.
  - intros dcrdClient log. reflexivity.
Qed.

(** C4, as stated, fails: the error of the node is not returned unchanged.
    With maturity 256, expiry 40960 and 257 confirmations the node is asked,
    and when it answers with an error the caller receives another error
    value, with another text. *)
Lemma canTicketVote_query_error_changed :
  let rawTx := {| Txid := exampleHash; Confirmations := 257 |} in
  let e := errors_New "connection refused" in
  let dcrdClient := exampleNode (false, Some e) in
  (TicketMaturity exampleParams < Confirmations rawTx
     <= TicketMaturity exampleParams + TicketExpiry exampleParams + 1) /\
  snd (canTicketVote rawTx dcrdClient exampleParams [])
    = [ExistsLiveTicketCall exampleHash] /\
  snd (fst (canTicketVote rawTx dcrdClient exampleParams [])) <> Some e /\
  (Error <$> snd (fst (canTicketVote rawTx dcrdClient exampleParams [])))
    <> Some (Error e).
Proof.
  cbv zeta. split; [ simpl; lia | ].
  split; [ reflexivity | ].
  split; vm_compute; intros H; discriminate H.
Qed.

(** C4, amended.  Whenever [canTicketVote] asks the node, which it does in
    particular when [M < c <= M+E+1] and the sum of maturity and expiry
    fits 32 bits, and the node answers with an error, the result is false
    together with an error that wraps the node's: its text is the node's
    text after the prefix "dcrd.ExistsLiveTicket error: ", and unwrapping
    it gives the node's error.  The error is not dropped and no answer is
    returned without it. *)
Theorem canTicketVote_query_error_wrapped rawTx dcrdClient netParams log live e :
  ExistsLiveTicket dcrdClient (Txid rawTx) = (live, Some e) ->
  (snd (canTicketVote rawTx dcrdClient netParams log)
     = (log ++ [ExistsLiveTicketCall (Txid rawTx)])%list
   \/ (Params_wf netParams /\
       TicketMaturity netParams + TicketExpiry netParams < uint32_mod /\
       TicketMaturity netParams < Confirmations rawTx
         <= TicketMaturity netParams + TicketExpiry netParams + 1)) ->
  exists err,
    canTicketVote rawTx dcrdClient netParams log
      = ((false, Some err), (log ++ [ExistsLiveTicketCall (Txid rawTx)])%list) /\
    Unwrap err = Some e /\
    Error err = "dcrd.ExistsLiveTicket error: " ++ Error e /\
    err <> e.
Proof.
  intros Hq Hasked.
  assert (Hcall : snd (canTicketVote rawTx dcrdClient netParams log)
                  = (log ++ [ExistsLiveTicketCall (Txid rawTx)])%list).
  { destruct Hasked as [H | [Hwf [Hsum Hwin]]]; [exact H | ].
    apply (canTicketVote_decision rawTx dcrdClient netParams log Hwf Hsum).
    exact Hwin. }
  destruct (canTicketVote_cases rawTx dcrdClient netParams log)
    as [[_ R] | [[_ [_ R]] | [_ [_ R]]]]; rewrite R in *; simpl in Hcall.
  - symmetry in Hcall. destruct (log_grows _ _ Hcall).
  - symmetry in Hcall. destruct (log_grows _ _ Hcall).
  - rewrite Hq. simpl.
    exists (Errorf_w "dcrd.ExistsLiveTicket error: " e).
    split; [reflexivity | ]. split; [reflexivity | ]. split; [reflexivity | ].
    apply wrapError_neq_inner.
Qed.

Lemma canTicketVote_query_error_wrapped_witness :
  (exists err,
     canTicketVote {| Txid := exampleHash; Confirmations := 257 |}
       (exampleNode (false, Some (errors_New "connection refused")))
       exampleParams []
       = ((false, Some err), [ExistsLiveTicketCall exampleHash]) /\
     Unwrap err = Some (errors_New "connection refused") /\
     Error err = "dcrd.ExistsLiveTicket error: " ++ "connection refused" /\
     err <> errors_New "connection refused") /\
  (exists err,
     canTicketVote {| Txid := exampleHash; Confirmations := 41217 |}
       (exampleNode (true, Some (errors_New "timeout")))
       exampleParams []
       = ((false, Some err), [ExistsLiveTicketCall exampleHash]) /\
     Unwrap err = Some (errors_New "timeout") /\
     Error err = "dcrd.ExistsLiveTicket error: " ++ "timeout" /\
     err <> errors_New "timeout").
Proof.
  split.
  - apply (canTicketVote_query_error_wrapped
             {| Txid := exampleHash; Confirmations := 257 |}
             (exampleNode (false, Some (errors_New "connection refused")))
             exampleParams [] false (errors_New "connection refused")).
    + reflexivity.
    + left. reflexivity.
  - apply (canTicketVote_query_error_wrapped
             {| Txid := exampleHash; Confirmations := 41217 |}
             (exampleNode (true, Some (errors_New "timeout")))
             exampleParams [] true (errors_New "timeout")).
    + reflexivity.
    + right. unfold Params_wf, uint16_mod, uint32_mod. simpl. lia.
Defined.

(** The three-way decision at the parameters of the main network: 41218
    confirmations are too many, 256 are not yet enough to be mature, and at
    257 the node is asked. *)
Lemma canTicketVote_three_way_witness :
  canTicketVote {| Txid := exampleHash; Confirmations := 41218 |}
    (exampleNode (true, None)) exampleParams [] = ((false, None), []) /\
  canTicketVote {| Txid := exampleHash; Confirmations := 256 |}
    (exampleNode (false, None)) exampleParams [] = ((true, None), []) /\
  snd (canTicketVote {| Txid := exampleHash; Confirmations := 257 |}
         (exampleNode (true, None)) exampleParams [])
    = [ExistsLiveTicketCall exampleHash] /\
  fst (canTicketVote {| Txid := exampleHash; Confirmations := 257 |}
         (exampleNode (true, None)) exampleParams []) = (true, None).
Proof.
  assert (Hwf : Params_wf exampleParams).
  { unfold Params_wf, uint16_mod, uint32_mod. simpl. lia. }
  assert (Hsum : TicketMaturity exampleParams + TicketExpiry exampleParams < uint32_mod).
  { unfold uint32_mod. simpl. lia. }
  split; [ | split; [ | split ] ].
  - apply (proj1 (canTicketVote_three_way
                    {| Txid := exampleHash; Confirmations := 41218 |}
                    (exampleNode (true, None)) exampleParams [] Hwf Hsum)).
    simpl. lia.
  - apply (proj1 (proj2 (canTicketVote_three_way
                    {| Txid := exampleHash; Confirmations := 256 |}
                    (exampleNode (false, None)) exampleParams [] Hwf Hsum))).
    simpl. lia.
  - apply (proj2 (proj2 (canTicketVote_three_way
                    {| Txid := exampleHash; Confirmations := 257 |}
                    (exampleNode (true, None)) exampleParams [] Hwf Hsum))).
    simpl. lia.
  - apply (proj2 (proj2 (canTicketVote_three_way
                    {| Txid := exampleHash; Confirmations := 257 |}
                    (exampleNode (true, None)) exampleParams [] Hwf Hsum))).
    + simpl. lia.
    + reflexivity.
Defined.

(** ** [validateSignature] *)

Section SignatureProperties.

Variable VerifyMessage : string -> string -> string -> Params -> option error.

(** The outcome of [validateSignature] in each of its paths. *)
Lemma validateSignature_cases hash commitmentAddress signature message db params log :
  validateSignature VerifyMessage hash commitmentAddress signature message db params log
  = match VerifyMessage commitmentAddress signature message params with
    | None => (None, log)
    | Some _ =>
        (match AltSignAddrData_of db hash with
         | (_, Some err) => Some (Errorf_w "db.AltSignAddrData failed: " err)
         | (None, None) => Some (errors_New "bad signature")
         | (Some altSigData, None) =>
             match VerifyMessage (AltSignAddr altSigData) signature message params with
             | Some _ => Some (errors_New "bad signature")
             | None => None
             end
         end, (log ++ [AltSignAddrDataCall hash])%list)
    end.
Proof.
  unfold validateSignature, bind, call_AltSignAddrData, ret.
  destruct (VerifyMessage commitmentAddress signature message params) as [e1|];
    [ | reflexivity ].
  simpl. destruct (AltSignAddrData_of db hash) as [[alt|] [e|]]; simpl; try reflexivity.
  destruct (VerifyMessage (AltSignAddr alt) signature message params); reflexivity.
Qed.

(** C7.  A signature that verifies against the commitment address is
    accepted and the database is not asked; whenever the database is asked,
    the check against the commitment address has failed. *)
Theorem validateSignature_primary_first
    hash commitmentAddress signature message db params log :
  (VerifyMessage commitmentAddress signature message params = None ->
     validateSignature VerifyMessage hash commitmentAddress signature message db params log
       = (None, log)) /\
  (snd (validateSignature VerifyMessage hash commitmentAddress signature message
          db params log) <> log ->
     VerifyMessage commitmentAddress signature message params <> None).
Proof.
  rewrite validateSignature_cases. split.
  - intros H. rewrite H. reflexivity.
  - destruct (VerifyMessage commitmentAddress signature message params); simpl.
    + intros _. discriminate.
    + intros H. destruct (H eq_refl).
Qed.

(** C2.  After a failed check against the commitment address and a lookup
    that succeeds, a run that finds no alternate record and a run that finds
    one whose address does not verify either end the same way: the same
    error value "bad signature" and the same single lookup in the call
    log. *)
Theorem validateSignature_failure_opaque
    hash commitmentAddress signature message db1 db2 params log altSigData :
  VerifyMessage commitmentAddress signature message params <> None ->
  AltSignAddrData_of db1 hash = (None, None) ->
  AltSignAddrData_of db2 hash = (Some altSigData, None) ->
  VerifyMessage (AltSignAddr altSigData) signature message params <> None ->
  validateSignature VerifyMessage hash commitmentAddress signature message db1 params log
    = validateSignature VerifyMessage hash commitmentAddress signature message db2 params log
  /\
  validateSignature VerifyMessage hash commitmentAddress signature message db1 params log
    = (Some (errors_New "bad signature"), (log ++ [AltSignAddrDataCall hash])%list).
Proof.
  intros Hfirst Hnone Hsome Halt.
  rewrite !validateSignature_cases, Hnone, Hsome.
  destruct (VerifyMessage commitmentAddress signature message params);
    [ | destruct (Hfirst eq_refl) ].
  destruct (VerifyMessage (AltSignAddr altSigData) signature message params);
    [ | destruct (Halt eq_refl) ].
  split; reflexivity.
Qed.

(** C3.  After a failed check against the commitment address, an error of
    the lookup is returned wrapped, with the text "db.AltSignAddrData
    failed: " before its own; the result is never the authentication
    failure "bad signature", neither as a value nor by its text, whatever
    the lookup error and whatever record comes with it. *)
Theorem validateSignature_lookup_error
    hash commitmentAddress signature message db params log record e :
  VerifyMessage commitmentAddress signature message params <> None ->
  AltSignAddrData_of db hash = (record, Some e) ->
  exists err,
    validateSignature VerifyMessage hash commitmentAddress signature message db params log
      = (Some err, (log ++ [AltSignAddrDataCall hash])%list) /\
    Unwrap err = Some e /\
    Error err = "db.AltSignAddrData failed: " ++ Error e /\
    err <> errors_New "bad signature" /\
    Error err <> Error (errors_New "bad signature").
Proof.
  intros Hfirst Hlookup.
  rewrite validateSignature_cases, Hlookup.
  destruct (VerifyMessage commitmentAddress signature message params);
    [ | destruct (Hfirst eq_refl) ].
  exists (Errorf_w "db.AltSignAddrData failed: " e).
  split; [destruct record; reflexivity | ].
  split; [reflexivity | ]. split; [reflexivity | ].
  split; intros H; discriminate H.
Qed.

End SignatureProperties.

(** Examples for [validateSignature], with the stand-in verification. *)

Lemma validateSignature_primary_first_witness :
  validateSignature plainVerify exampleHash "DsAddr" "DsAddr:hello" "hello"
    (exampleDb (None, Some (errors_New "bucket missing"))) exampleParams []
    = (None, []) /\
  plainVerify "DsAddr" "forged" "hello" exampleParams <> None.
Proof.
  split.
  - apply (proj1 (validateSignature_primary_first plainVerify exampleHash
                    "DsAddr" "DsAddr:hello" "hello"
                    (exampleDb (None, Some (errors_New "bucket missing")))
                    exampleParams [])).
    reflexivity.
  - apply (proj2 (validateSignature_primary_first plainVerify exampleHash
                    "DsAddr" "forged" "hello" (exampleDb (None, None))
                    exampleParams [])).
    vm_compute. intros H. discriminate H.
Defined.

Lemma validateSignature_failure_opaque_witness :
  validateSignature plainVerify exampleHash "DsAddr" "forged" "hello"
    (exampleDb (None, None)) exampleParams []
  = validateSignature plainVerify exampleHash "DsAddr" "forged" "hello"
      (exampleDb (Some {| AltSignAddr := "DsAlt" |}, None)) exampleParams []
  /\
  validateSignature plainVerify exampleHash "DsAddr" "forged" "hello"
    (exampleDb (None, None)) exampleParams []
  = (Some (errors_New "bad signature"), [AltSignAddrDataCall exampleHash]).
Proof.
  apply (validateSignature_failure_opaque plainVerify exampleHash
           "DsAddr" "forged" "hello" (exampleDb (None, None))
           (exampleDb (Some {| AltSignAddr := "DsAlt" |}, None))
           exampleParams [] {| AltSignAddr := "DsAlt" |}).
  - vm_compute. intros H. discriminate H.
  - reflexivity.
  - reflexivity.
  - vm_compute. intros H. discriminate H.
Defined.

Lemma validateSignature_lookup_error_witness :
  exists err,
    validateSignature plainVerify exampleHash "DsAddr" "forged" "hello"
      (exampleDb (None, Some (errors_New "bucket missing"))) exampleParams []
      = (Some err, [AltSignAddrDataCall exampleHash]) /\
    Unwrap err = Some (errors_New "bucket missing") /\
    Error err = "db.AltSignAddrData failed: " ++ "bucket missing" /\
    err <> errors_New "bad signature" /\
    Error err <> Error (errors_New "bad signature").
Proof.
  apply (validateSignature_lookup_error plainVerify exampleHash
           "DsAddr" "forged" "hello"
           (exampleDb (None, Some (errors_New "bucket missing")))
           exampleParams [] None (errors_New "bucket missing")).
  - vm_compute. intros H. discriminate H.
  - reflexivity.
Defined.

(** ** First-error searches and visiting orders *)

Lemma firstError_None {A} (check : A -> option error) (l : list A) :
  firstError check l = None <-> Forall (fun x => check x = None) l.
Proof.
  induction l as [| x rest IH]; simpl.
  - split; [constructor | reflexivity].
  - destruct (check x) as [e|] eqn:Hx.
    + split; [discriminate | ]. intros H. inversion H as [| ? ? Hx' ?]; subst.
      congruence.
    + rewrite IH. split.
      * intros H. now constructor.
      * intros H. now inversion H.
Qed.

(** Entries that pass are skipped: the outcome is decided by the first
    visited entry that does not pass, whatever comes after it. *)
Lemma firstError_skip {A} (check : A -> option error) (seen rest : list A) (x : A) :
  Forall (fun y => check y = None) seen ->
  firstError check (seen ++ x :: rest)%list
  = match check x with
    | Some err => Some err
    | None => firstError check rest
    end.
Proof.
  induction 1 as [| y seen Hy _ IH]; simpl.
  - reflexivity.
  - rewrite Hy. exact IH.
Qed.

Lemma range_order_Forall {K V} `{Countable K} (P : K * V -> Prop) (m : gmap K V)
    (order : list (K * V)) :
  range_order m order ->
  (Forall P order <-> map_Forall (fun k v => P (k, v)) m).
Proof.
  unfold range_order. intros Hperm.
  rewrite map_Forall_to_list, Hperm.
  apply Forall_proper; [ | reflexivity ].
  intros [k v]. reflexivity.
Qed.

Lemma range_order_empty {K V} `{Countable K} (order : list (K * V)) :
  range_order (∅ : gmap K V) order -> order = [].
Proof.
  unfold range_order. rewrite map_to_list_empty.
  apply Permutation_nil_r.
Qed.

Lemma range_order_elem {K V} `{Countable K} (m : gmap K V) (order : list (K * V)) k v :
  range_order m order -> (In (k, v) order <-> m !! k = Some v).
Proof.
  unfold range_order. intros Hperm.
  rewrite <- list_elem_of_In, Hperm. apply elem_of_map_to_list.
Qed.

(** ** [isValidTicket] *)

(** C6.  [isValidTicket] succeeds exactly on a stake submission with three
    outputs; a stake submission with another number of outputs fails with
    an error that gives the number; anything that is not a stake submission
    fails with the "not sstx" error, three outputs or not. *)
Theorem isValidTicket_spec (IsSStx : MsgTx -> bool) (tx : MsgTx) :
  (isValidTicket IsSStx tx = None
     <-> IsSStx tx = true /\ List.length (MsgTx_TxOut tx) = 3%nat) /\
  (IsSStx tx = true -> List.length (MsgTx_TxOut tx) <> 3%nat ->
     isValidTicket IsSStx tx
       = Some (errors_New ("invalid transaction - expected 3 outputs, got "
                             ++ fmt_d (Z.of_nat (List.length (MsgTx_TxOut tx)))))) /\
  (IsSStx tx = false ->
     isValidTicket IsSStx tx = Some (errors_New "invalid transaction - not sstx")).
Proof.
  unfold isValidTicket.
  destruct (IsSStx tx); simpl.
  - destruct (Nat.eqb_spec (List.length (MsgTx_TxOut tx)) 3) as [Heq | Hne]; simpl.
    + split; [ | split ].
      * split; [intros _; split; [reflexivity | exact Heq] | reflexivity].
      * intros _ Hne. destruct (Hne Heq).
      * discriminate.
    + split; [ | split ].
      * split; [discriminate | ]. intros [_ Heq]. destruct (Hne Heq).
      * reflexivity.
      * discriminate.
  - split; [ | split ].
    + split; [discriminate | ]. intros [H _]. discriminate H.
    + discriminate.
    + reflexivity.
Qed.

Lemma isValidTicket_spec_witness :
  isValidTicket taggedSStx (exampleTx Byte.xba 3) = None /\
  isValidTicket taggedSStx (exampleTx Byte.xba 2)
    = Some (errors_New "invalid transaction - expected 3 outputs, got 2") /\
  isValidTicket taggedSStx (exampleTx Byte.xba 4)
    = Some (errors_New "invalid transaction - expected 3 outputs, got 4") /\
  isValidTicket taggedSStx (exampleTx Byte.x76 3)
    = Some (errors_New "invalid transaction - not sstx").
Proof.
  split; [ | split; [ | split ] ].
  - apply (proj1 (isValidTicket_spec taggedSStx (exampleTx Byte.xba 3))).
    split; reflexivity.
  - apply (proj1 (proj2 (isValidTicket_spec taggedSStx (exampleTx Byte.xba 2)))).
    + reflexivity.
    + simpl. lia.
  - apply (proj1 (proj2 (isValidTicket_spec taggedSStx (exampleTx Byte.xba 4)))).
    + reflexivity.
    + simpl. lia.
  - apply (proj2 (proj2 (isValidTicket_spec taggedSStx (exampleTx Byte.x76 3)))).
    reflexivity.
Defined.

(** ** Policy values *)

Section PolicyProperties.

Variable Quote : string -> string.
Variable DecodeString : string -> list Byte.byte * option error.
Variable NewHashFromStr : string -> option (list Byte.byte) * option error.

Lemma validPolicyOption_accepts (policy : string) :
  In policy policyOptions -> validPolicyOption Quote policy = None.
Proof.
  unfold policyOptions. simpl.
  intros [H | [H | [H | [H | [H | []]]]]]; subst; reflexivity.
Qed.

Lemma validPolicyOption_rejects (policy : string) :
  ~ In policy policyOptions ->
  validPolicyOption Quote policy
  = Some (errors_New (Quote policy ++ " is not a valid policy option")).
Proof.
  unfold policyOptions, validPolicyOption. simpl. intros Hnot.
  destruct (String.eqb_spec policy "yes") as [-> | _]; [tauto | ].
  destruct (String.eqb_spec policy "no") as [-> | _]; [tauto | ].
  destruct (String.eqb_spec policy "abstain") as [-> | _]; [tauto | ].
  destruct (String.eqb_spec policy "invalid") as [-> | _]; [tauto | ].
  destruct (String.eqb_spec policy EmptyString) as [-> | _]; [tauto | ].
  reflexivity.
Qed.

Lemma validPolicyOption_None (policy : string) :
  validPolicyOption Quote policy = None <-> In policy policyOptions.
Proof.
  split; [ | apply validPolicyOption_accepts ].
  intros H. destruct (In_dec string_dec policy policyOptions) as [Hin | Hnot];
    [exact Hin | ].
  rewrite (validPolicyOption_rejects _ Hnot) in H. discriminate H.
Qed.

(** The enumerated values are lower case, so a value that differs from them
    only by casing is not one of them. *)
Lemma other_casing_not_option (policy : string) :
  In (toLower policy) policyOptions -> policy <> toLower policy ->
  ~ In policy policyOptions.
Proof.
  intros _ Hne Hin. apply Hne.
  unfold policyOptions in Hin. simpl in Hin.
  destruct Hin as [H | [H | [H | [H | [H | []]]]]]; subst; reflexivity.
Qed.

(** ** [validTreasuryPolicy] *)

Lemma validTreasuryPolicy_firstError (order : list (string * string)) :
  validTreasuryPolicy Quote DecodeString order
  = firstError (checkTreasuryEntry Quote DecodeString) order.
Proof.
  induction order as [| [key choice] rest IH]; simpl; [reflexivity | ].
  unfold checkTreasuryEntry. simpl.
  destruct (DecodeString key) as [pikey [e|]]; simpl; [reflexivity | ].
  destruct (negb (List.length pikey =? PubKeyBytesLenCompressed)%nat); [reflexivity | ].
  rewrite IH. reflexivity.
Qed.

Lemma checkTreasuryEntry_None (entry : string * string) :
  checkTreasuryEntry Quote DecodeString entry = None
  <-> treasuryEntryOk DecodeString entry.
Proof.
  unfold checkTreasuryEntry, treasuryEntryOk, treasuryKeyOk.
  destruct (snd (DecodeString (fst entry))) as [e|].
  - split; [discriminate | ]. intros [[H _] _]. discriminate H.
  - destruct (Nat.eqb_spec (List.length (fst (DecodeString (fst entry))))
                PubKeyBytesLenCompressed) as [Hlen | Hlen]; simpl.
    + rewrite validPolicyOption_None. split.
      * intros H. repeat split; [exact Hlen | exact H].
      * intros [_ H]. exact H.
    + split; [discriminate | ]. intros [[_ H] _]. destruct (Hlen H).
Qed.

(** C8.  For a policy map visited in any order: [validTreasuryPolicy]
    succeeds exactly when every key decodes without error to 33 bytes and
    every value is one of the five enumerated ones.  At the first visited
    entry that does not pass, a key that does not decode gives the wrapped
    decoding error with the key in its text, a key of another length gives
    the "is not 33 bytes" error with the key, and a value outside the set
    under a good key gives the error with that value.  A value that differs
    from an enumerated one only by casing is rejected by
    [validPolicyOption], with the value in the text. *)
Theorem validTreasuryPolicy_spec
    (policy : gmap string string) (order : list (string * string)) :
  range_order policy order ->
  (validTreasuryPolicy Quote DecodeString order = None
     <-> map_Forall (fun key choice =>
                       treasuryKeyOk DecodeString key /\ In choice policyOptions)
           policy) /\
  (forall seen key choice rest,
     order = (seen ++ (key, choice) :: rest)%list ->
     Forall (treasuryEntryOk DecodeString) seen ->
     (forall e, snd (DecodeString key) = Some e ->
        validTreasuryPolicy Quote DecodeString order
        = Some (Errorf_w ("error decoding treasury key " ++ Quote key ++ ": ") e)) /\
     (snd (DecodeString key) = None ->
      List.length (fst (DecodeString key)) <> PubKeyBytesLenCompressed ->
        validTreasuryPolicy Quote DecodeString order
        = Some (errors_New ("treasury key " ++ Quote key ++ " is not 33 bytes"))) /\
     (treasuryKeyOk DecodeString key -> ~ In choice policyOptions ->
        validTreasuryPolicy Quote DecodeString order
        = Some (errors_New (Quote choice ++ " is not a valid policy option")))) /\
  (forall value,
     In (toLower value) policyOptions -> value <> toLower value ->
     validPolicyOption Quote value
     = Some (errors_New (Quote value ++ " is not a valid policy option"))).
Proof.
  intros Horder. split; [ | split ].
  - rewrite validTreasuryPolicy_firstError, firstError_None.
    rewrite <- (range_order_Forall
                  (fun entry => treasuryKeyOk DecodeString (fst entry)
                                /\ In (snd entry) policyOptions)
                  policy order Horder).
    apply Forall_proper; [ | reflexivity ].
    intros entry. apply checkTreasuryEntry_None.
  - intros seen key choice rest -> Hseen.
    rewrite validTreasuryPolicy_firstError, firstError_skip.
    2:{ eapply Forall_impl; [exact Hseen | ].
        intros entry. apply checkTreasuryEntry_None. }
    unfold checkTreasuryEntry. simpl.
    split; [ | split ].
    + intros e He. rewrite He. reflexivity.
    + intros He Hlen. rewrite He.
      destruct (Nat.eqb_spec (List.length (fst (DecodeString key)))
                  PubKeyBytesLenCompressed) as [H | _]; [destruct (Hlen H) | ].
      reflexivity.
    + intros [He Hlen] Hchoice. rewrite He, Hlen. simpl.
      rewrite (validPolicyOption_rejects _ Hchoice). reflexivity.
  - intros value Hlow Hne.
    apply validPolicyOption_rejects, other_casing_not_option; assumption.
Qed.

(** ** [validateTicketHash] and [validTSpendPolicy] *)

Lemma validTSpendPolicy_firstError (order : list (string * string)) :
  validTSpendPolicy Quote NewHashFromStr order
  = firstError (checkTSpendEntry Quote NewHashFromStr) order.
Proof.
  induction order as [| [hash choice] rest IH]; simpl; [reflexivity | ].
  unfold checkTSpendEntry. simpl.
  destruct (negb (String.length hash =? MaxHashStringSize)%nat); [reflexivity | ].
  destruct (snd (NewHashFromStr hash)); [reflexivity | ].
  rewrite IH. reflexivity.
Qed.

Lemma checkTSpendEntry_None (entry : string * string) :
  checkTSpendEntry Quote NewHashFromStr entry = None
  <-> tspendEntryOk NewHashFromStr entry.
Proof.
  unfold checkTSpendEntry, tspendEntryOk, hashStringOk.
  destruct (Nat.eqb_spec (String.length (fst entry)) MaxHashStringSize)
    as [Hlen | Hlen]; simpl.
  - destruct (snd (NewHashFromStr (fst entry))) as [e|].
    + split; [discriminate | ]. intros [[_ H] _]. discriminate H.
    + rewrite validPolicyOption_None. split.
      * intros H. repeat split; [exact Hlen | exact H].
      * intros [_ H]. exact H.
  - split; [discriminate | ]. intros [[H _] _]. destruct (Hlen H).
Qed.

(** C9.  [validateTicketHash]: a string whose length is not 64 is rejected
    with the error that gives its length and 64, whatever the parser would
    say of it; a string of 64 characters that does not parse is rejected
    with the wrapped parse error; a string of 64 characters that parses is
    accepted.  [validTSpendPolicy], on a map visited in any order: a map
    with a key that does not pass is rejected, and at the first visited
    entry that does not pass the key is checked in the same way, an
    accepted key leaving the outcome to its value and the entries after
    it. *)
Theorem hash_string_validation :
  (forall hash,
     (forall parse, String.length hash <> MaxHashStringSize ->
        validateTicketHash parse hash
        = Some (errors_New ("incorrect hash length: got "
                              ++ fmt_d (Z.of_nat (String.length hash))
                              ++ ", expected 64"))) /\
     (forall e, String.length hash = MaxHashStringSize ->
        snd (NewHashFromStr hash) = Some e ->
        validateTicketHash NewHashFromStr hash = Some (Errorf_w "invalid hash: " e)) /\
     (hashStringOk NewHashFromStr hash ->
        validateTicketHash NewHashFromStr hash = None)) /\
  (forall (policy : gmap string string) (order : list (string * string)),
     range_order policy order ->
     (forall hash choice,
        policy !! hash = Some choice -> ~ hashStringOk NewHashFromStr hash ->
        validTSpendPolicy Quote NewHashFromStr order <> None) /\
     (forall seen hash choice rest,
        order = (seen ++ (hash, choice) :: rest)%list ->
        Forall (tspendEntryOk NewHashFromStr) seen ->
        (String.length hash <> MaxHashStringSize ->
           validTSpendPolicy Quote NewHashFromStr order
           = Some (errors_New ("wrong tspend hash length, expected 64 got "
                                 ++ fmt_d (Z.of_nat (String.length hash))))) /\
        (forall e, String.length hash = MaxHashStringSize ->
           snd (NewHashFromStr hash) = Some e ->
           validTSpendPolicy Quote NewHashFromStr order
           = Some (Errorf_w ("error decoding tspend hash " ++ Quote hash ++ ": ") e)) /\
        (hashStringOk NewHashFromStr hash ->
           validTSpendPolicy Quote NewHashFromStr order
           = match validPolicyOption Quote choice with
             | Some e => Some e
             | None => validTSpendPolicy Quote NewHashFromStr rest
             end))).
Proof.
  split.
  - intros hash. unfold validateTicketHash, hashStringOk. split; [ | split ].
    + intros parse Hlen.
      destruct (Nat.eqb_spec (String.length hash) MaxHashStringSize) as [H | _];
        [destruct (Hlen H) | ].
      reflexivity.
    + intros e Hlen He. rewrite Hlen, He. reflexivity.
    + intros [Hlen He]. rewrite Hlen, He. reflexivity.
  - intros policy order Horder. split.
    + intros hash choice Hin Hbad Hnone.
      rewrite validTSpendPolicy_firstError, firstError_None in Hnone.
      apply (range_order_elem policy order hash choice Horder) in Hin.
      rewrite List.Forall_forall in Hnone. specialize (Hnone _ Hin).
      apply checkTSpendEntry_None in Hnone. destruct Hnone as [Hok _].
      exact (Hbad Hok).
    + intros seen hash choice rest -> Hseen.
      rewrite validTSpendPolicy_firstError, firstError_skip.
      2:{ eapply Forall_impl; [exact Hseen | ].
          intros entry. apply checkTSpendEntry_None. }
      rewrite <- validTSpendPolicy_firstError.
      unfold checkTSpendEntry, hashStringOk. simpl.
      split; [ | split ].
      * intros Hlen.
        destruct (Nat.eqb_spec (String.length hash) MaxHashStringSize) as [H | _];
          [destruct (Hlen H) | ].
        reflexivity.
      * intros e Hlen He. rewrite Hlen, He. reflexivity.
      * intros [Hlen He]. rewrite Hlen, He. simpl.
        destruct (validPolicyOption Quote choice); reflexivity.
Qed.

(** ** Empty submissions *)

(** C10.  The only visiting order of an empty map is the empty one, and on
    it each of the three validators returns no error, for every parameter
    set and vote version. *)
Theorem empty_mapping_passes (params : Params) (voteVersion : N)
    (order : list (string * string)) :
  range_order (∅ : gmap string string) order ->
  validConsensusVoteChoices Quote params voteVersion order = None /\
  validTreasuryPolicy Quote DecodeString order = None /\
  validTSpendPolicy Quote NewHashFromStr order = None.
Proof.
  intros Horder. rewrite (range_order_empty order Horder).
  repeat split.
Qed.

End PolicyProperties.

Lemma range_order_singleton (key choice : string) :
  range_order ({[ key := choice ]} : gmap string string) [(key, choice)].
Proof.
  unfold range_order. rewrite map_to_list_singleton. reflexivity.
Defined.

Lemma range_order_nil : range_order (∅ : gmap string string) [].
Proof.
  unfold range_order. rewrite map_to_list_empty. reflexivity.
Defined.

Lemma hash_string_validation_witness :
  validateTicketHash parseHash "abcd"
    = Some (errors_New "incorrect hash length: got 4, expected 64") /\
  validateTicketHash parseHash (String "z" (substring 1 63 exampleHash))
    = Some (Errorf_w "invalid hash: " (InvalidByteError "z")) /\
  validateTicketHash parseHash exampleHash = None /\
  validTSpendPolicy plainQuote parseHash [("abcd", "yes")]
    = Some (errors_New "wrong tspend hash length, expected 64 got 4") /\
  validTSpendPolicy plainQuote parseHash [(exampleHash, "no")] = None.
Proof.
  pose proof (hash_string_validation plainQuote parseHash) as [Hhash Hpolicy].
  split; [ | split; [ | split; [ | split ] ] ].
  - apply (proj1 (Hhash "abcd") parseHash). vm_compute. intros H. discriminate H.
  - apply (proj1 (proj2 (Hhash (String "z" (substring 1 63 exampleHash))))
             (InvalidByteError "z")); reflexivity.
  - apply (proj2 (proj2 (Hhash exampleHash))). split; reflexivity.
  - apply (proj1 (proj2 (Hpolicy {[ "abcd" := "yes" ]} [("abcd", "yes")]
                           (range_order_singleton _ _))
                    [] "abcd" "yes" [] eq_refl (List.Forall_nil _))).
    vm_compute. intros H. discriminate H.
  - apply (proj2 (proj2 (proj2 (Hpolicy {[ exampleHash := "no" ]} [(exampleHash, "no")]
                           (range_order_singleton _ _))
                    [] exampleHash "no" [] eq_refl (List.Forall_nil _)))).
    split; reflexivity.
Defined.

Lemma empty_mapping_passes_witness :
  validConsensusVoteChoices plainQuote exampleParams 10 [] = None /\
  validTreasuryPolicy plainQuote hexDecode [] = None /\
  validTSpendPolicy plainQuote parseHash [] = None.
Proof.
  exact (empty_mapping_passes plainQuote hexDecode parseHash exampleParams 10 []
           range_order_nil).
Defined.

Lemma validTreasuryPolicy_spec_witness :
  validTreasuryPolicy plainQuote hexDecode [(examplePubKey, "yes")] = None /\
  validTreasuryPolicy plainQuote hexDecode [("zz", "yes")]
    = Some (Errorf_w ("error decoding treasury key " ++ plainQuote "zz" ++ ": ")
              (InvalidByteError "z")) /\
  validTreasuryPolicy plainQuote hexDecode [("02a3", "yes")]
    = Some (errors_New ("treasury key " ++ plainQuote "02a3" ++ " is not 33 bytes")) /\
  validTreasuryPolicy plainQuote hexDecode [(examplePubKey, "Yes")]
    = Some (errors_New (plainQuote "Yes" ++ " is not a valid policy option")) /\
  validPolicyOption plainQuote "ABSTAIN"
    = Some (errors_New (plainQuote "ABSTAIN" ++ " is not a valid policy option")).
Proof.
  split; [ | split; [ | split; [ | split ] ] ].
  - apply (proj1 (validTreasuryPolicy_spec plainQuote hexDecode
                    {[ examplePubKey := "yes" ]} [(examplePubKey, "yes")]
                    (range_order_singleton _ _))).
    apply map_Forall_singleton. split; [split; vm_compute; reflexivity | ].
    simpl. tauto.
  - apply (proj1 (proj1 (proj2 (validTreasuryPolicy_spec plainQuote hexDecode
                    {[ "zz" := "yes" ]} [("zz", "yes")] (range_order_singleton _ _)))
                    [] "zz" "yes" [] eq_refl (List.Forall_nil _))).
    reflexivity.
  - apply (proj1 (proj2 (proj1 (proj2 (validTreasuryPolicy_spec plainQuote hexDecode
                    {[ "02a3" := "yes" ]} [("02a3", "yes")] (range_order_singleton _ _)))
                    [] "02a3" "yes" [] eq_refl (List.Forall_nil _)))).
    + reflexivity.
    + vm_compute. intros H. discriminate H.
  - apply (proj2 (proj2 (proj1 (proj2 (validTreasuryPolicy_spec plainQuote hexDecode
                    {[ examplePubKey := "Yes" ]} [(examplePubKey, "Yes")] (range_order_singleton _ _)))
                    [] examplePubKey "Yes" [] eq_refl (List.Forall_nil _)))).
    + split; vm_compute; reflexivity.
    + simpl. intros [H | [H | [H | [H | [H | []]]]]]; discriminate H.
  - apply (proj2 (proj2 (validTreasuryPolicy_spec plainQuote hexDecode
                    ∅ [] range_order_nil))).
    + simpl. tauto.
    + intros H. discriminate H.
Defined.

(** ** [validConsensusVoteChoices] *)

Lemma choiceLoop_true (choices : list Choice) (choice : string) :
  choiceLoop choices choice = true
  <-> exists c, In c choices /\ Choice_Id c = choice.
Proof.
  induction choices as [| c rest IH]; simpl.
  - split; [discriminate | ]. intros [c [[] _]].
  - destruct (String.eqb_spec (Choice_Id c) choice) as [Heq | Hne].
    + split; [ | reflexivity ]. intros _. exists c. split; [left; reflexivity | exact Heq].
    + rewrite IH. split.
      * intros [c' [Hin Hid]]. exists c'. split; [right; exact Hin | exact Hid].
      * intros [c' [[Hc | Hin] Hid]].
        -- subst c'. destruct (Hne Hid).
        -- exists c'. split; assumption.
Qed.

Lemma agendaKnown_dec (deployments : list ConsensusDeployment) (agenda : string) :
  agendaKnown deployments agenda \/ ~ agendaKnown deployments agenda.
Proof.
  induction deployments as [| v rest IH].
  - right. intros [d [[] _]].
  - destruct (string_dec (Vote_Id (Deployment_Vote v)) agenda) as [Heq | Hne].
    + left. exists v. split; [left; reflexivity | exact Heq].
    + destruct IH as [[d [Hin Hid]] | Hnot].
      * left. exists d. split; [right; exact Hin | exact Hid].
      * right. intros [d [[Hd | Hin] Hid]].
        -- subst d. destruct (Hne Hid).
        -- apply Hnot. exists d. split; assumption.
Qed.

Section ChoiceProperties.

Variable Quote : string -> string.

(** An agenda that is not in the list is reported by its identifier. *)
Lemma deploymentLoop_unknown deployments voteVersion agenda choice :
  ~ agendaKnown deployments agenda ->
  deploymentLoop Quote deployments voteVersion agenda choice
  = Some (errors_New ("agenda " ++ Quote agenda ++ " not found for vote version "
                        ++ fmt_d (Z.of_N voteVersion))).
Proof.
  induction deployments as [| v rest IH]; simpl; intros Hnot; [reflexivity | ].
  destruct (String.eqb_spec (Vote_Id (Deployment_Vote v)) agenda) as [Heq | Hne].
  - destruct Hnot. exists v. split; [left; reflexivity | exact Heq].
  - apply IH. intros [d [Hin Hid]]. apply Hnot. exists d.
    split; [right; exact Hin | exact Hid].
Qed.

(** With distinct agenda identifiers, the loop stops at the one agenda that
    has the submitted identifier and decides by its choice list. *)
Lemma deploymentLoop_known deployments voteVersion agenda choice d :
  List.NoDup (agendaIds deployments) ->
  In d deployments -> Vote_Id (Deployment_Vote d) = agenda ->
  deploymentLoop Quote deployments voteVersion agenda choice
  = if choiceLoop (Vote_Choices (Deployment_Vote d)) choice then None
    else Some (errors_New ("choice " ++ Quote choice ++ " not found for agenda "
                             ++ Quote agenda)).
Proof.
  induction deployments as [| v rest IH]; simpl; intros Hnd Hin Hid; [destruct Hin | ].
  inversion Hnd as [| ? ? Hfresh Hnd']; subst.
  destruct Hin as [-> | Hin].
  - rewrite String.eqb_refl. reflexivity.
  - destruct (String.eqb_spec (Vote_Id (Deployment_Vote v)) (Vote_Id (Deployment_Vote d)))
      as [Heq | Hne].
    + destruct Hfresh. rewrite Heq. unfold agendaIds.
      apply (in_map (fun d => Vote_Id (Deployment_Vote d))). exact Hin.
    + apply IH; [exact Hnd' | exact Hin | reflexivity].
Qed.

Lemma checkVoteChoice_None params voteVersion (entry : string * string) :
  List.NoDup (agendaIds (deploymentsOf params voteVersion)) ->
  checkVoteChoice Quote params voteVersion entry = None
  <-> pairInTables (deploymentsOf params voteVersion) (fst entry) (snd entry).
Proof.
  intros Hnd. unfold checkVoteChoice, pairInTables. split.
  - intros Hnone.
    destruct (agendaKnown_dec (deploymentsOf params voteVersion) (fst entry))
      as [[d [Hin Hid]] | Hnot].
    + exists d. split; [exact Hin | ]. split; [exact Hid | ].
      rewrite (deploymentLoop_known _ _ _ _ d Hnd Hin Hid) in Hnone.
      apply choiceLoop_true.
      destruct (choiceLoop (Vote_Choices (Deployment_Vote d)) (snd entry));
        [reflexivity | discriminate Hnone].
    + rewrite (deploymentLoop_unknown _ _ _ _ Hnot) in Hnone. discriminate Hnone.
  - intros [d [Hin [Hid Hch]]].
    rewrite (deploymentLoop_known _ _ _ _ d Hnd Hin Hid).
    apply choiceLoop_true in Hch. rewrite Hch. reflexivity.
Qed.

Lemma validConsensusVoteChoices_firstError params voteVersion
    (order : list (string * string)) :
  validConsensusVoteChoices Quote params voteVersion order
  = firstError (checkVoteChoice Quote params voteVersion) order.
Proof.
  induction order as [| [agenda choice] rest IH]; simpl; [reflexivity | ].
  unfold checkVoteChoice at 1. simpl. rewrite IH. reflexivity.
Qed.

(** C5.  For parameters whose agendas of the vote version have distinct
    identifiers, and a submitted mapping visited in any order: validation
    succeeds exactly when every submitted pair appears in the tables of the
    version.  At the first visited pair that does not, an agenda of the
    version whose choice list lacks the submitted choice gives the error
    with that choice and agenda, and an identifier of no agenda of the
    version gives the error with that identifier; the pairs after it play no
    part. *)
Theorem validConsensusVoteChoices_spec (params : Params) (voteVersion : N)
    (voteChoices : gmap string string) (order : list (string * string)) :
  List.NoDup (agendaIds (deploymentsOf params voteVersion)) ->
  range_order voteChoices order ->
  (validConsensusVoteChoices Quote params voteVersion order = None
     <-> map_Forall (fun agenda choice =>
                       pairInTables (deploymentsOf params voteVersion) agenda choice)
           voteChoices) /\
  (forall seen agenda choice rest,
     order = (seen ++ (agenda, choice) :: rest)%list ->
     Forall (fun entry =>
               pairInTables (deploymentsOf params voteVersion) (fst entry) (snd entry))
       seen ->
     (forall d, In d (deploymentsOf params voteVersion) ->
        Vote_Id (Deployment_Vote d) = agenda -> ~ choiceOf d choice ->
        validConsensusVoteChoices Quote params voteVersion order
        = Some (errors_New ("choice " ++ Quote choice ++ " not found for agenda "
                              ++ Quote agenda))) /\
     (~ agendaKnown (deploymentsOf params voteVersion) agenda ->
        validConsensusVoteChoices Quote params voteVersion order
        = Some (errors_New ("agenda " ++ Quote agenda ++ " not found for vote version "
                              ++ fmt_d (Z.of_N voteVersion))))).
Proof.
  intros Hnd Horder. split.
  - rewrite validConsensusVoteChoices_firstError, firstError_None.
    rewrite <- (range_order_Forall
                  (fun entry => pairInTables (deploymentsOf params voteVersion)
                                  (fst entry) (snd entry))
                  voteChoices order Horder).
    apply Forall_proper; [ | reflexivity ].
    intros entry. apply checkVoteChoice_None. exact Hnd.
  - intros seen agenda choice rest -> Hseen.
    rewrite validConsensusVoteChoices_firstError, firstError_skip.
    2:{ eapply Forall_impl; [exact Hseen | ].
        intros entry. apply checkVoteChoice_None. exact Hnd. }
    unfold checkVoteChoice. simpl. split.
    + intros d Hin Hid Hch.
      rewrite (deploymentLoop_known _ _ _ _ d Hnd Hin Hid).
      destruct (choiceLoop (Vote_Choices (Deployment_Vote d)) choice) eqn:Hloop;
        [ | reflexivity ].
      apply choiceLoop_true in Hloop. destruct (Hch Hloop).
    + intros Hnot. rewrite (deploymentLoop_unknown _ _ _ _ Hnot). reflexivity.
Qed.

End ChoiceProperties.

Lemma exampleParams_distinct_agendas :
  List.NoDup (agendaIds (deploymentsOf exampleParams 10)).
Proof.
  vm_compute. constructor; [ | constructor; [ | constructor ] ].
  - intros [H | []]. discriminate H.
  - intros [].
Defined.

Lemma exampleOrder1_visits : range_order exampleVotes exampleOrder1.
Proof. unfold range_order. vm_compute. reflexivity. Defined.

Lemma exampleOrder2_visits : range_order exampleVotes exampleOrder2.
Proof.
  unfold range_order. vm_compute.
  exact (Permutation_cons_append
           [("changesubsidysplit", "yes"); ("reverttreasurypolicy", "maybe")]
           ("blake3pow", "yes")).
Defined.

Lemma examplePair_in_tables :
  pairInTables (deploymentsOf exampleParams 10) "changesubsidysplit" "yes".
Proof.
  exists (exampleDeployment "changesubsidysplit" 24).
  split; [vm_compute; right; left; reflexivity | ].
  split; [reflexivity | ].
  exists {| Choice_Id := "yes"; Choice_Description := "change to the new rules";
            Choice_Bits := 4; Choice_IsAbstain := false; Choice_IsNo := false |}.
  split; [simpl; tauto | reflexivity].
Defined.

Lemma exampleSeen_in_tables :
  Forall (fun entry =>
            pairInTables (deploymentsOf exampleParams 10) (fst entry) (snd entry))
    [("changesubsidysplit", "yes")].
Proof.
  constructor; [exact examplePair_in_tables | constructor].
Defined.

Lemma validConsensusVoteChoices_spec_witness :
  validConsensusVoteChoices plainQuote exampleParams 10 [("changesubsidysplit", "yes")]
    = None /\
  validConsensusVoteChoices plainQuote exampleParams 10 exampleOrder1
    = Some (errors_New ("choice " ++ plainQuote "maybe" ++ " not found for agenda "
                          ++ plainQuote "reverttreasurypolicy")) /\
  validConsensusVoteChoices plainQuote exampleParams 10 exampleOrder2
    = Some (errors_New ("agenda " ++ plainQuote "blake3pow"
                          ++ " not found for vote version 10")).
Proof.
  split; [ | split ].
  - apply (proj1 (validConsensusVoteChoices_spec plainQuote exampleParams 10
                    {[ "changesubsidysplit" := "yes" ]} [("changesubsidysplit", "yes")]
                    exampleParams_distinct_agendas (range_order_singleton _ _))).
    apply map_Forall_singleton.
    exact examplePair_in_tables.
  - apply (proj1 (proj2 (validConsensusVoteChoices_spec plainQuote exampleParams 10
                    exampleVotes exampleOrder1
                    exampleParams_distinct_agendas exampleOrder1_visits)
                    [("changesubsidysplit", "yes")] "reverttreasurypolicy" "maybe"
                    [("blake3pow", "yes")] eq_refl
                    exampleSeen_in_tables)
             (exampleDeployment "reverttreasurypolicy" 6)).
    + vm_compute. left. reflexivity.
    + reflexivity.
    + intros [c [Hin Hid]]. simpl in Hin.
      destruct Hin as [<- | [<- | [<- | []]]]; discriminate Hid.
  - apply (proj2 (proj2 (validConsensusVoteChoices_spec plainQuote exampleParams 10
                    exampleVotes exampleOrder2
                    exampleParams_distinct_agendas exampleOrder2_visits)
                    [] "blake3pow" "yes"
                    [("changesubsidysplit", "yes"); ("reverttreasurypolicy", "maybe")]
                    eq_refl (List.Forall_nil _))).
    intros [d [Hin Hid]]. vm_compute in Hin.
    destruct Hin as [<- | [<- | []]]; discriminate Hid.
Defined.

(** ** [currentVoteVersion] *)

Lemma currentVoteVersion_fold (deployments : list (N * list ConsensusDeployment))
    (latest : N) :
  let result :=
    fold_left (fun latestVersion entry =>
                 if (latestVersion <? fst entry)%N then fst entry else latestVersion)
      deployments latest in
  (latest <= result)%N /\
  (forall entry, In entry deployments -> (fst entry <= result)%N) /\
  (result = latest \/ exists entry, In entry deployments /\ fst entry = result).
Proof.
  revert latest. induction deployments as [| entry rest IH]; intros latest; simpl.
  - split; [lia | ]. split; [intros entry [] | left; reflexivity].
  - specialize (IH (if (latest <? fst entry)%N then fst entry else latest)).
    cbv zeta in IH. destruct IH as [Hge [Hall Hwhich]].
    destruct (N.ltb_spec latest (fst entry)) as [Hlt | Hle].
    + split; [lia | ]. split.
      * intros e [<- | Hin]; [exact Hge | exact (Hall e Hin)].
      * right. destruct Hwhich as [-> | [e [Hin He]]].
        -- exists entry. split; [left; reflexivity | reflexivity].
        -- exists e. split; [right; exact Hin | exact He].
    + split; [exact Hge | ]. split.
      * intros e [<- | Hin]; [lia | exact (Hall e Hin)].
      * destruct Hwhich as [-> | [e [Hin He]]]; [left; reflexivity | ].
        right. exists e. split; [right; exact Hin | exact He].
Qed.

(** X2.  Whatever the order in which the deployments are visited,
    [currentVoteVersion] returns the largest vote version that has
    deployments, and zero when there is none. *)
Theorem currentVoteVersion_max (params : Params)
    (order : list (N * list ConsensusDeployment)) :
  range_order (Deployments params) order ->
  (forall version deployments,
     Deployments params !! version = Some deployments ->
     (version <= currentVoteVersion order)%N) /\
  (is_Some (Deployments params !! currentVoteVersion order)
   \/ (Deployments params = ∅ /\ currentVoteVersion order = 0%N)).
Proof.
  intros Horder.
  destruct (currentVoteVersion_fold order 0%N) as [_ [Hall Hwhich]].
  fold (currentVoteVersion order) in Hall, Hwhich.
  split.
  - intros version deployments Hlookup.
    apply (range_order_elem _ order version deployments Horder) in Hlookup.
    exact (Hall _ Hlookup).
  - destruct Hwhich as [Hzero | [[version deployments] [Hin Hfst]]].
    + destruct order as [| [version deployments] rest].
      * right. split; [ | exact Hzero ].
        unfold range_order in Horder. symmetry in Horder.
        apply Permutation_nil_r in Horder.
        apply map_to_list_empty_iff. exact Horder.
      * left. assert (Hin : In (version, deployments) ((version, deployments) :: rest))
          by (left; reflexivity).
        pose proof (Hall _ Hin) as Hle. simpl in Hle.
        assert (version = 0%N) by lia. subst version.
        apply (range_order_elem _ _ _ _ Horder) in Hin.
        rewrite Hzero, Hin. eexists. reflexivity.
    + left. simpl in Hfst. subst version.
      apply (range_order_elem _ _ _ _ Horder) in Hin. rewrite Hin.
      eexists. reflexivity.
Qed.

Lemma currentVoteVersion_max_witness :
  (forall version deployments,
     Deployments exampleParams !! version = Some deployments ->
     (version <= currentVoteVersion (map_to_list (Deployments exampleParams)))%N) /\
  (is_Some (Deployments exampleParams
              !! currentVoteVersion (map_to_list (Deployments exampleParams)))
   \/ (Deployments exampleParams = ∅ /\
       currentVoteVersion (map_to_list (Deployments exampleParams)) = 0%N)).
Proof.
  apply (currentVoteVersion_max exampleParams (map_to_list (Deployments exampleParams))).
  unfold range_order. reflexivity.
Defined.

(** * Further properties *)

(** ** Visiting orders and the reported error *)

Lemma firstError_Some {A} (check : A -> option error) (l : list A) (e : error) :
  firstError check l = Some e -> exists x, In x l /\ check x = Some e.
Proof.
  induction l as [| x rest IH]; simpl; [discriminate | ].
  destruct (check x) as [e'|] eqn:Hx.
  - intros H. exists x. split; [left; reflexivity | ]. rewrite Hx. exact H.
  - intros H. destruct (IH H) as [y [Hin Hy]]. exists y.
    split; [right; exact Hin | exact Hy].
Qed.

Lemma firstError_single {A} (check : A -> option error) (x : A) :
  firstError check [x] = check x.
Proof. simpl. destruct (check x); reflexivity. Qed.

Lemma firstError_perm_None {A} (check : A -> option error) (l1 l2 : list A) :
  l1 ≡ₚ l2 -> (firstError check l1 = None <-> firstError check l2 = None).
Proof.
  intros Hperm. rewrite !firstError_None, Hperm. reflexivity.
Qed.

Lemma range_order_same {K V} `{Countable K} (m : gmap K V) (l1 l2 : list (K * V)) :
  range_order m l1 -> range_order m l2 -> l1 ≡ₚ l2.
Proof.
  unfold range_order. intros H1 H2. rewrite H1, H2. reflexivity.
Qed.

(** Any entry of a map may be the first one visited. *)
Lemma range_order_head {K V} `{Countable K} (m : gmap K V) (k : K) (v : V) :
  m !! k = Some v -> range_order m ((k, v) :: map_to_list (delete k m)).
Proof.
  intros Hlookup. unfold range_order.
  apply map_to_list_delete. exact Hlookup.
Qed.

(** The three validators share their shape: the proofs about the visiting
    order are done once, for a validator that is the first-error search of
    some check. *)
Section OrderOfVisit.

Variable validator : list (string * string) -> option error.
Variable check : string * string -> option error.
Hypothesis validator_firstError : forall order, validator order = firstError check order.

Lemma accept_any_order (m : gmap string string) (order1 order2 : list (string * string)) :
  range_order m order1 -> range_order m order2 ->
  (validator order1 = None <-> validator order2 = None).
Proof.
  intros H1 H2. rewrite !validator_firstError.
  apply firstError_perm_None. exact (range_order_same m _ _ H1 H2).
Qed.

Lemma error_of_some_entry (m : gmap string string) (order : list (string * string))
    (e : error) :
  range_order m order -> validator order = Some e ->
  exists key value, m !! key = Some value /\ validator [(key, value)] = Some e.
Proof.
  intros Horder Hres. rewrite validator_firstError in Hres.
  destruct (firstError_Some check order e Hres) as [[key value] [Hin Hcheck]].
  exists key, value. split.
  - apply (range_order_elem m order key value Horder). exact Hin.
  - rewrite validator_firstError, firstError_single. exact Hcheck.
Qed.

Lemma any_entry_reported (m : gmap string string) (key value : string) (e : error) :
  m !! key = Some value -> validator [(key, value)] = Some e ->
  exists order, range_order m order /\ validator order = Some e.
Proof.
  intros Hlookup Hone.
  exists ((key, value) :: map_to_list (delete key m)). split.
  - apply range_order_head. exact Hlookup.
  - rewrite validator_firstError, firstError_single in Hone.
    rewrite validator_firstError. simpl. rewrite Hone. reflexivity.
Qed.

End OrderOfVisit.

Section ValidatorsAndOrder.

Variable Quote : string -> string.
Variable DecodeString : string -> list Byte.byte * option error.
Variable NewHashFromStr : string -> option (list Byte.byte) * option error.

(** X3.  Whether a submission is accepted does not depend on the order in
    which the map is visited: two visiting orders of the same map are both
    accepted or both rejected, by each of the three validators and for every
    parameter set and vote version. *)
Theorem validators_accept_any_order (params : Params) (voteVersion : N)
    (m : gmap string string) (order1 order2 : list (string * string)) :
  range_order m order1 -> range_order m order2 ->
  (validConsensusVoteChoices Quote params voteVersion order1 = None
     <-> validConsensusVoteChoices Quote params voteVersion order2 = None) /\
  (validTreasuryPolicy Quote DecodeString order1 = None
     <-> validTreasuryPolicy Quote DecodeString order2 = None) /\
  (validTSpendPolicy Quote NewHashFromStr order1 = None
     <-> validTSpendPolicy Quote NewHashFromStr order2 = None).
Proof.
  intros H1 H2. split; [ | split ].
  - exact (accept_any_order _ _
             (validConsensusVoteChoices_firstError Quote params voteVersion)
             m order1 order2 H1 H2).
  - exact (accept_any_order _ _
             (validTreasuryPolicy_firstError Quote DecodeString) m order1 order2 H1 H2).
  - exact (accept_any_order _ _
             (validTSpendPolicy_firstError Quote NewHashFromStr) m order1 order2 H1 H2).
Qed.

(** X4.  An error returned for a map is the error of one of its entries:
    the validator returns the same error on that entry alone. *)
Theorem validators_error_of_some_entry (params : Params) (voteVersion : N)
    (m : gmap string string) (order : list (string * string)) (e : error) :
  range_order m order ->
  (validConsensusVoteChoices Quote params voteVersion order = Some e ->
     exists agenda choice, m !! agenda = Some choice /\
       validConsensusVoteChoices Quote params voteVersion [(agenda, choice)] = Some e) /\
  (validTreasuryPolicy Quote DecodeString order = Some e ->
     exists key choice, m !! key = Some choice /\
       validTreasuryPolicy Quote DecodeString [(key, choice)] = Some e) /\
  (validTSpendPolicy Quote NewHashFromStr order = Some e ->
     exists hash choice, m !! hash = Some choice /\
       validTSpendPolicy Quote NewHashFromStr [(hash, choice)] = Some e).
Proof.
  intros Horder. split; [ | split ].
  - exact (error_of_some_entry _ _
             (validConsensusVoteChoices_firstError Quote params voteVersion)
             m order e Horder).
  - exact (error_of_some_entry _ _
             (validTreasuryPolicy_firstError Quote DecodeString) m order e Horder).
  - exact (error_of_some_entry _ _
             (validTSpendPolicy_firstError Quote NewHashFromStr) m order e Horder).
Qed.

(** X5.  Which error is returned is not fixed by the map: an entry that is
    rejected alone with some error is the one reported, with that error, in
    some visiting order of every map that holds it. *)
Theorem validators_any_entry_reported (params : Params) (voteVersion : N)
    (m : gmap string string) (key value : string) (e : error) :
  m !! key = Some value ->
  (validConsensusVoteChoices Quote params voteVersion [(key, value)] = Some e ->
     exists order, range_order m order /\
       validConsensusVoteChoices Quote params voteVersion order = Some e) /\
  (validTreasuryPolicy Quote DecodeString [(key, value)] = Some e ->
     exists order, range_order m order /\
       validTreasuryPolicy Quote DecodeString order = Some e) /\
  (validTSpendPolicy Quote NewHashFromStr [(key, value)] = Some e ->
     exists order, range_order m order /\
       validTSpendPolicy Quote NewHashFromStr order = Some e).
Proof.
  intros Hlookup. split; [ | split ].
  - exact (any_entry_reported _ _
             (validConsensusVoteChoices_firstError Quote params voteVersion)
             m key value e Hlookup).
  - exact (any_entry_reported _ _
             (validTreasuryPolicy_firstError Quote DecodeString) m key value e Hlookup).
  - exact (any_entry_reported _ _
             (validTSpendPolicy_firstError Quote NewHashFromStr) m key value e Hlookup).
Qed.

(** ** More on [validConsensusVoteChoices] *)

(** X6.  For a vote version that has no deployments, the empty submission
    passes and every other one is rejected, with the "agenda not found"
    error for one of the submitted agendas and that version. *)
Theorem validConsensusVoteChoices_unknown_version (params : Params) (voteVersion : N)
    (m : gmap string string) (order : list (string * string)) :
  Deployments params !! voteVersion = None ->
  range_order m order ->
  (m = ∅ /\ validConsensusVoteChoices Quote params voteVersion order = None) \/
  (exists agenda choice, m !! agenda = Some choice /\
     validConsensusVoteChoices Quote params voteVersion order
     = Some (errors_New ("agenda " ++ Quote agenda ++ " not found for vote version "
                           ++ fmt_d (Z.of_N voteVersion)))).
Proof.
  intros Hnone Horder.
  destruct order as [| [agenda choice] rest].
  - left. split; [ | reflexivity ].
    unfold range_order in Horder. symmetry in Horder.
    apply Permutation_nil_r in Horder.
    apply map_to_list_empty_iff. exact Horder.
  - right. exists agenda, choice. split.
    + apply (range_order_elem m _ agenda choice Horder). left. reflexivity.
    + simpl. unfold deploymentsOf. rewrite Hnone. reflexivity.
Qed.

(** The loop stops at the first agenda that has the submitted identifier;
    the agendas after it are not looked at. *)
Lemma deploymentLoop_first before d after voteVersion agenda choice :
  ~ In agenda (agendaIds before) ->
  Vote_Id (Deployment_Vote d) = agenda ->
  deploymentLoop Quote (before ++ d :: after)%list voteVersion agenda choice
  = if choiceLoop (Vote_Choices (Deployment_Vote d)) choice then None
    else Some (errors_New ("choice " ++ Quote choice ++ " not found for agenda "
                             ++ Quote agenda)).
Proof.
  intros Hfresh Hid. induction before as [| v rest IH]; simpl.
  - rewrite Hid, String.eqb_refl. reflexivity.
  - simpl in Hfresh.
    destruct (String.eqb_spec (Vote_Id (Deployment_Vote v)) agenda) as [Heq | Hne].
    + destruct Hfresh. left. exact Heq.
    + apply IH. intros Hin. apply Hfresh. right. exact Hin.
Qed.

(** X7.  Without any assumption on the identifiers: the first agenda of the
    version that has the submitted identifier decides alone.  If its choice
    list lacks the submitted choice, the pair is rejected with the "choice
    not found" error and so is every map that holds the pair, in every
    visiting order, whatever agendas follow, also one with the same
    identifier that has the choice; if its list has the choice the pair
    passes. *)
Theorem validConsensusVoteChoices_first_agenda_decides (params : Params)
    (voteVersion : N) before d after (m : gmap string string)
    (order : list (string * string)) (agenda choice : string) :
  deploymentsOf params voteVersion = (before ++ d :: after)%list ->
  ~ In agenda (agendaIds before) ->
  Vote_Id (Deployment_Vote d) = agenda ->
  range_order m order ->
  m !! agenda = Some choice ->
  (choiceOf d choice ->
     validConsensusVoteChoices Quote params voteVersion [(agenda, choice)] = None) /\
  (~ choiceOf d choice ->
     validConsensusVoteChoices Quote params voteVersion [(agenda, choice)]
       = Some (errors_New ("choice " ++ Quote choice ++ " not found for agenda "
                             ++ Quote agenda)) /\
     validConsensusVoteChoices Quote params voteVersion order <> None).
Proof.
  intros Hds Hfresh Hid Horder Hlookup.
  assert (Hone : validConsensusVoteChoices Quote params voteVersion [(agenda, choice)]
                 = if choiceLoop (Vote_Choices (Deployment_Vote d)) choice then None
                   else Some (errors_New ("choice " ++ Quote choice
                                            ++ " not found for agenda " ++ Quote agenda))).
  { simpl. rewrite Hds, (deploymentLoop_first _ _ _ _ _ _ Hfresh Hid).
    destruct (choiceLoop (Vote_Choices (Deployment_Vote d)) choice); reflexivity. }
  split.
  - intros Hch. apply choiceLoop_true in Hch. rewrite Hone, Hch. reflexivity.
  - intros Hch.
    assert (Hloop : choiceLoop (Vote_Choices (Deployment_Vote d)) choice = false).
    { destruct (choiceLoop (Vote_Choices (Deployment_Vote d)) choice) eqn:Hl;
        [ | reflexivity ].
      apply choiceLoop_true in Hl. destruct (Hch Hl). }
    rewrite Hloop in Hone. split; [exact Hone | ].
    intros Hnone.
    rewrite validConsensusVoteChoices_firstError, firstError_None in Hnone.
    apply (range_order_elem m order agenda choice Horder) in Hlookup.
    rewrite List.Forall_forall in Hnone. specialize (Hnone _ Hlookup).
    rewrite validConsensusVoteChoices_firstError, firstError_single, Hnone in Hone.
    discriminate Hone.
Qed.

(** ** More on [validTSpendPolicy] *)

(** X8.  For a policy map visited in any order, [validTSpendPolicy] succeeds
    exactly when every key is a hash string of 64 characters that parses and
    every value is one of the five enumerated ones; at the first visited
    entry that does not pass, a value outside the set under a good key gives
    the error with that value. *)
Theorem validTSpendPolicy_spec
    (policy : gmap string string) (order : list (string * string)) :
  range_order policy order ->
  (validTSpendPolicy Quote NewHashFromStr order = None
     <-> map_Forall (fun hash choice =>
                       hashStringOk NewHashFromStr hash /\ In choice policyOptions)
           policy) /\
  (forall seen hash choice rest,
     order = (seen ++ (hash, choice) :: rest)%list ->
     Forall (tspendEntryOk NewHashFromStr) seen ->
     hashStringOk NewHashFromStr hash -> ~ In choice policyOptions ->
     validTSpendPolicy Quote NewHashFromStr order
     = Some (errors_New (Quote choice ++ " is not a valid policy option"))).
Proof.
  intros Horder. split.
  - rewrite validTSpendPolicy_firstError, firstError_None.
    rewrite <- (range_order_Forall
                  (fun entry => hashStringOk NewHashFromStr (fst entry)
                                /\ In (snd entry) policyOptions)
                  policy order Horder).
    apply Forall_proper; [ | reflexivity ].
    intros entry. apply checkTSpendEntry_None.
  - intros seen hash choice rest -> Hseen [Hlen Hparse] Hchoice.
    rewrite validTSpendPolicy_firstError, firstError_skip.
    2:{ eapply Forall_impl; [exact Hseen | ].
        intros entry. apply checkTSpendEntry_None. }
    unfold checkTSpendEntry. simpl. rewrite Hlen, Hparse. simpl.
    rewrite (validPolicyOption_rejects Quote _ Hchoice). reflexivity.
Qed.

End ValidatorsAndOrder.

Lemma validators_accept_any_order_witness :
  (validConsensusVoteChoices plainQuote exampleParams 10 exampleOrder1 = None
     <-> validConsensusVoteChoices plainQuote exampleParams 10 exampleOrder2 = None) /\
  (validTreasuryPolicy plainQuote hexDecode exampleOrder1 = None
     <-> validTreasuryPolicy plainQuote hexDecode exampleOrder2 = None) /\
  (validTSpendPolicy plainQuote parseHash exampleOrder1 = None
     <-> validTSpendPolicy plainQuote parseHash exampleOrder2 = None).
Proof.
  exact (validators_accept_any_order plainQuote hexDecode parseHash exampleParams 10
           exampleVotes exampleOrder1 exampleOrder2
           exampleOrder1_visits exampleOrder2_visits).
Defined.

Lemma validators_error_of_some_entry_witness :
  exists agenda choice,
    exampleVotes !! agenda = Some choice /\
    validConsensusVoteChoices plainQuote exampleParams 10 [(agenda, choice)]
    = Some (errors_New ("choice " ++ plainQuote "maybe" ++ " not found for agenda "
                          ++ plainQuote "reverttreasurypolicy")).
Proof.
  apply (proj1 (validators_error_of_some_entry plainQuote hexDecode parseHash
                  exampleParams 10 exampleVotes exampleOrder1
                  (errors_New ("choice " ++ plainQuote "maybe" ++ " not found for agenda "
                                 ++ plainQuote "reverttreasurypolicy"))
                  exampleOrder1_visits)).
  vm_compute. reflexivity.
Defined.

Lemma validators_any_entry_reported_witness :
  exists order,
    range_order exampleVotes order /\
    validConsensusVoteChoices plainQuote exampleParams 10 order
    = Some (errors_New ("agenda " ++ plainQuote "blake3pow"
                          ++ " not found for vote version 10")).
Proof.
  apply (proj1 (validators_any_entry_reported plainQuote hexDecode parseHash
                  exampleParams 10 exampleVotes "blake3pow" "yes"
                  (errors_New ("agenda " ++ plainQuote "blake3pow"
                                 ++ " not found for vote version 10"))
                  eq_refl)).
  vm_compute. reflexivity.
Defined.

Lemma validConsensusVoteChoices_unknown_version_witness :
  (({[ "changesubsidysplit" := "yes" ]} : gmap string string) = ∅ /\
   validConsensusVoteChoices plainQuote exampleParams 7 [("changesubsidysplit", "yes")]
   = None) \/
  (exists agenda choice,
     ({[ "changesubsidysplit" := "yes" ]} : gmap string string) !! agenda = Some choice /\
     validConsensusVoteChoices plainQuote exampleParams 7 [("changesubsidysplit", "yes")]
     = Some (errors_New ("agenda " ++ plainQuote agenda ++ " not found for vote version "
                           ++ fmt_d (Z.of_N 7)))).
Proof.
  apply (validConsensusVoteChoices_unknown_version plainQuote exampleParams 7
           {[ "changesubsidysplit" := "yes" ]} [("changesubsidysplit", "yes")]).
  - reflexivity.
  - apply range_order_singleton.
Defined.

Lemma exampleShadowed_lookup (choice : string) :
  ({[ "changesubsidysplit" := choice ]} : gmap string string) !! "changesubsidysplit"
  = Some choice.
Proof. apply lookup_singleton_eq. Defined.

Lemma validConsensusVoteChoices_first_agenda_decides_witness :
  choiceOf exampleShadowed "maybe" /\
  validConsensusVoteChoices plainQuote exampleShadowParams 11
    [("changesubsidysplit", "maybe")]
    = Some (errors_New ("choice " ++ plainQuote "maybe" ++ " not found for agenda "
                          ++ plainQuote "changesubsidysplit")) /\
  validConsensusVoteChoices plainQuote exampleShadowParams 11
    [("changesubsidysplit", "yes")] = None.
Proof.
  split; [ | split ].
  - exists {| Choice_Id := "maybe"; Choice_Description := "undecided";
              Choice_Bits := 6; Choice_IsAbstain := false; Choice_IsNo := false |}.
    split; [simpl; tauto | reflexivity].
  - refine (proj1 (proj2 (validConsensusVoteChoices_first_agenda_decides plainQuote
                     exampleShadowParams 11
                     [] (exampleDeployment "changesubsidysplit" 6) [exampleShadowed]
                     {[ "changesubsidysplit" := "maybe" ]}
                     [("changesubsidysplit", "maybe")]
                     "changesubsidysplit" "maybe"
                     eq_refl (fun H : False => H) eq_refl
                     (range_order_singleton _ _) (exampleShadowed_lookup _)) _)).
    intros [c [Hin Hid]]. simpl in Hin.
    destruct Hin as [<- | [<- | [<- | []]]]; discriminate Hid.
  - refine (proj1 (validConsensusVoteChoices_first_agenda_decides plainQuote
                     exampleShadowParams 11
                     [] (exampleDeployment "changesubsidysplit" 6) [exampleShadowed]
                     {[ "changesubsidysplit" := "yes" ]}
                     [("changesubsidysplit", "yes")]
                     "changesubsidysplit" "yes"
                     eq_refl (fun H : False => H) eq_refl
                     (range_order_singleton _ _) (exampleShadowed_lookup _)) _).
    exists {| Choice_Id := "yes"; Choice_Description := "change to the new rules";
              Choice_Bits := 4; Choice_IsAbstain := false; Choice_IsNo := false |}.
    split; [simpl; tauto | reflexivity].
Defined.

Lemma validTSpendPolicy_spec_witness :
  validTSpendPolicy plainQuote parseHash [(exampleHash, "abstain")] = None /\
  validTSpendPolicy plainQuote parseHash [(exampleHash, "Abstain")]
    = Some (errors_New (plainQuote "Abstain" ++ " is not a valid policy option")).
Proof.
  split.
  - apply (proj1 (validTSpendPolicy_spec plainQuote parseHash
                    {[ exampleHash := "abstain" ]} [(exampleHash, "abstain")]
                    (range_order_singleton _ _))).
    apply map_Forall_singleton. split; [split; reflexivity | ].
    simpl. tauto.
  - apply (proj2 (validTSpendPolicy_spec plainQuote parseHash
                    {[ exampleHash := "Abstain" ]} [(exampleHash, "Abstain")]
                    (range_order_singleton _ _))
             [] exampleHash "Abstain" [] eq_refl (List.Forall_nil _)).
    + split; reflexivity.
    + simpl. intros [H | [H | [H | [H | [H | []]]]]]; discriminate H.
Defined.

(** ** More on [canTicketVote] *)

(** X9.  [canTicketVote] keeps the calls made before it and adds at most
    one, a live-ticket query for the transaction it was given; when it adds
    none, its answer is the same for every node. *)
Theorem canTicketVote_frame rawTx dcrdClient netParams log :
  (snd (canTicketVote rawTx dcrdClient netParams log) = log /\
   forall otherClient,
     canTicketVote rawTx otherClient netParams log
     = canTicketVote rawTx dcrdClient netParams log) \/
  snd (canTicketVote rawTx dcrdClient netParams log)
    = (log ++ [ExistsLiveTicketCall (Txid rawTx)])%list.
Proof.
  destruct (canTicketVote_cases rawTx dcrdClient netParams log)
    as [[H1 R] | [[H1 [H2 R]] | [_ [_ R]]]].
  - left. rewrite R. split; [reflexivity | ]. intros otherClient.
    destruct (canTicketVote_cases rawTx otherClient netParams log)
      as [[_ R'] | [[H1' _] | [H1' _]]]; [exact R' | lia | lia].
  - left. rewrite R. split; [reflexivity | ]. intros otherClient.
    destruct (canTicketVote_cases rawTx otherClient netParams log)
      as [[H1' _] | [[_ [_ R']] | [_ [H2' _]]]]; [lia | exact R' | lia].
  - right. rewrite R. reflexivity.
Qed.

(** X10.  What the answers of [canTicketVote] mean.  The answer true comes
    without an error, and only for a ticket with at most [TicketMaturity]
    confirmations or one the node has reported live.  An error comes with
    the answer false, and only when the node was asked and returned the
    error it wraps. *)
Theorem canTicketVote_answers rawTx dcrdClient netParams log :
  (forall err,
     fst (canTicketVote rawTx dcrdClient netParams log) = (true, err) ->
     err = None /\
     (Confirmations rawTx <= TicketMaturity netParams \/
      ExistsLiveTicket dcrdClient (Txid rawTx) = (true, None))) /\
  (forall answer err,
     fst (canTicketVote rawTx dcrdClient netParams log) = (answer, Some err) ->
     answer = false /\
     snd (canTicketVote rawTx dcrdClient netParams log)
       = (log ++ [ExistsLiveTicketCall (Txid rawTx)])%list /\
     exists e, snd (ExistsLiveTicket dcrdClient (Txid rawTx)) = Some e /\
               err = Errorf_w "dcrd.ExistsLiveTicket error: " e).
Proof.
  destruct (canTicketVote_cases rawTx dcrdClient netParams log)
    as [[H1 R] | [[H1 [H2 R]] | [H1 [H2 R]]]]; rewrite R; simpl.
  - split; intros; discriminate.
  - split.
    + intros err H. injection H as <-. split; [reflexivity | left; exact H2].
    + intros answer err H. discriminate H.
  - destruct (ExistsLiveTicket dcrdClient (Txid rawTx)) as [live [e|]]; simpl.
    + split.
      * intros err H. discriminate H.
      * intros answer err H. injection H as <- <-.
        split; [reflexivity | ]. split; [reflexivity | ].
        exists e. split; reflexivity.
    + split.
      * intros err H. injection H as -> <-. split; [reflexivity | right; reflexivity].
      * intros answer err H. discriminate H.
Qed.

(** X11.  A ticket without confirmations is answered true and the node is
    not asked, for all parameters in the range of their types, also those
    whose maturity and expiry sum does not fit 32 bits. *)
Theorem canTicketVote_unconfirmed rawTx dcrdClient netParams log :
  Params_wf netParams ->
  Confirmations rawTx <= 0 ->
  canTicketVote rawTx dcrdClient netParams log = ((true, None), log).
Proof.
  intros [HM _] Hc.
  pose proof (Z.mod_pos_bound
                (to_uint32 (TicketMaturity netParams) + TicketExpiry netParams)
                uint32_mod ltac:(unfold uint32_mod; lia)) as Hthr.
  destruct (canTicketVote_cases rawTx dcrdClient netParams log)
    as [[H1 _] | [[_ [_ R]] | [_ [H2 _]]]].
  - unfold uint32_add in H1. lia.
  - exact R.
  - lia.
Qed.

(** ** More on [validateSignature] *)

Section MoreSignatureProperties.

Variable VerifyMessage : string -> string -> string -> Params -> option error.

(** X12.  [validateSignature] accepts exactly when the signature verifies
    against the commitment address, or the lookup returns without error a
    record whose address the signature verifies against; in the second case,
    after a failed first check, exactly one lookup has been made. *)
Theorem validateSignature_accepts_iff
    hash commitmentAddress signature message db params log :
  (fst (validateSignature VerifyMessage hash commitmentAddress signature message
          db params log) = None
   <-> VerifyMessage commitmentAddress signature message params = None \/
       exists altSigData,
         AltSignAddrData_of db hash = (Some altSigData, None) /\
         VerifyMessage (AltSignAddr altSigData) signature message params = None) /\
  (forall altSigData,
     VerifyMessage commitmentAddress signature message params <> None ->
     AltSignAddrData_of db hash = (Some altSigData, None) ->
     VerifyMessage (AltSignAddr altSigData) signature message params = None ->
     validateSignature VerifyMessage hash commitmentAddress signature message
       db params log
     = (None, (log ++ [AltSignAddrDataCall hash])%list)).
Proof.
  rewrite validateSignature_cases. split.
  - destruct (VerifyMessage commitmentAddress signature message params) as [e1|]; simpl.
    + destruct (AltSignAddrData_of db hash) as [[alt|] [e|]]; simpl.
      * split; [discriminate | ].
        intros [H | [alt' [H _]]]; discriminate H.
      * destruct (VerifyMessage (AltSignAddr alt) signature message params) eqn:Halt.
        -- split; [discriminate | ].
           intros [H | [alt' [H Hv]]]; [discriminate H | ].
           injection H as <-. rewrite Halt in Hv. discriminate Hv.
        -- split; [ | reflexivity ]. intros _. right. exists alt.
           split; [reflexivity | exact Halt].
      * split; [discriminate | ].
        intros [H | [alt' [H _]]]; discriminate H.
      * split; [discriminate | ].
        intros [H | [alt' [H _]]]; discriminate H.
    + split; [ | reflexivity ]. intros _. left. reflexivity.
  - intros alt Hfirst Hlookup Halt.
    destruct (VerifyMessage commitmentAddress signature message params);
      [ | destruct (Hfirst eq_refl) ].
    rewrite Hlookup, Halt. reflexivity.
Qed.

(** X13.  The outcomes of [validateSignature]: either the first check
    passed, nothing was looked up and the result is nil; or the first check
    failed, the calls made before are followed by one lookup of the given
    hash, and the result is nil, the error "bad signature", or the wrapped
    error of the lookup. *)
Theorem validateSignature_outcomes
    hash commitmentAddress signature message db params log :
  (VerifyMessage commitmentAddress signature message params = None /\
   validateSignature VerifyMessage hash commitmentAddress signature message
     db params log = (None, log)) \/
  (VerifyMessage commitmentAddress signature message params <> None /\
   snd (validateSignature VerifyMessage hash commitmentAddress signature message
          db params log) = (log ++ [AltSignAddrDataCall hash])%list /\
   (fst (validateSignature VerifyMessage hash commitmentAddress signature message
           db params log) = None \/
    fst (validateSignature VerifyMessage hash commitmentAddress signature message
           db params log) = Some (errors_New "bad signature") \/
    exists e, snd (AltSignAddrData_of db hash) = Some e /\
      fst (validateSignature VerifyMessage hash commitmentAddress signature message
             db params log)
      = Some (Errorf_w "db.AltSignAddrData failed: " e))).
Proof.
  rewrite !validateSignature_cases.
  destruct (VerifyMessage commitmentAddress signature message params) as [e1|]; simpl.
  - right. split; [discriminate | ]. split; [reflexivity | ].
    destruct (AltSignAddrData_of db hash) as [[alt|] [e|]]; simpl.
    + right; right. exists e. split; reflexivity.
    + destruct (VerifyMessage (AltSignAddr alt) signature message params);
        [right; left; reflexivity | left; reflexivity].
    + right; right. exists e. split; reflexivity.
    + right; left. reflexivity.
  - left. split; reflexivity.
Qed.

End MoreSignatureProperties.

(** ** [decodeTransaction] *)

(** X14.  [decodeTransaction] returns a transaction or an error, never both
    and never neither.  An error of the hexadecimal decoding is returned as
    it is, and the bytes are not deserialised; otherwise the decoded bytes
    are deserialised into a new transaction, whose error is returned as it
    is, and which is returned when there is none. *)
Theorem decodeTransaction_spec
    (DecodeString : string -> list Byte.byte * option error) (NewMsgTx : MsgTx)
    (FromBytes : MsgTx -> list Byte.byte -> MsgTx * option error) (txHex : string) :
  (fst (decodeTransaction DecodeString NewMsgTx FromBytes txHex) = None
   <-> snd (decodeTransaction DecodeString NewMsgTx FromBytes txHex) <> None) /\
  (forall e, snd (DecodeString txHex) = Some e ->
     forall otherFromBytes,
       decodeTransaction DecodeString NewMsgTx otherFromBytes txHex = (None, Some e)) /\
  (snd (DecodeString txHex) = None ->
     (forall e, snd (FromBytes NewMsgTx (fst (DecodeString txHex))) = Some e ->
        decodeTransaction DecodeString NewMsgTx FromBytes txHex = (None, Some e)) /\
     (snd (FromBytes NewMsgTx (fst (DecodeString txHex))) = None ->
        decodeTransaction DecodeString NewMsgTx FromBytes txHex
        = (Some (fst (FromBytes NewMsgTx (fst (DecodeString txHex)))), None))).
Proof.
  unfold decodeTransaction.
  destruct (DecodeString txHex) as [msgHex [e1|]]; simpl.
  - split; [ | split ].
    + split; [discriminate | reflexivity].
    + intros e H otherFromBytes. injection H as <-. reflexivity.
    + discriminate.
  - destruct (FromBytes NewMsgTx msgHex) as [msgTx [e2|]]; simpl.
    + split; [ | split ].
      * split; [discriminate | reflexivity].
      * discriminate.
      * intros _. split; [ | discriminate ].
        intros e H. injection H as <-. reflexivity.
    + split; [ | split ].
      * split; [discriminate | ]. intros H. destruct (H eq_refl).
      * discriminate.
      * intros _. split; [discriminate | reflexivity].
Qed.

Lemma canTicketVote_frame_witness :
  ((snd (canTicketVote {| Txid := exampleHash; Confirmations := 256 |}
           (exampleNode (false, None)) exampleParams []) = [] /\
    forall otherClient,
      canTicketVote {| Txid := exampleHash; Confirmations := 256 |}
        otherClient exampleParams []
      = canTicketVote {| Txid := exampleHash; Confirmations := 256 |}
          (exampleNode (false, None)) exampleParams []) \/
   snd (canTicketVote {| Txid := exampleHash; Confirmations := 256 |}
          (exampleNode (false, None)) exampleParams [])
     = [ExistsLiveTicketCall exampleHash]) /\
  snd (canTicketVote {| Txid := exampleHash; Confirmations := 256 |}
         (exampleNode (false, None)) exampleParams []) = [].
Proof.
  split.
  - exact (canTicketVote_frame {| Txid := exampleHash; Confirmations := 256 |}
             (exampleNode (false, None)) exampleParams []).
  - reflexivity.
Defined.

Lemma canTicketVote_answers_witness :
  (None = (None : option error) /\
   (257 <= TicketMaturity exampleParams \/
    ExistsLiveTicket (exampleNode (true, None)) exampleHash = (true, None))) /\
  (false = false /\
   snd (canTicketVote {| Txid := exampleHash; Confirmations := 300 |}
          (exampleNode (true, Some (errors_New "timeout"))) exampleParams [])
     = [ExistsLiveTicketCall exampleHash] /\
   exists e,
     snd (ExistsLiveTicket (exampleNode (true, Some (errors_New "timeout"))) exampleHash)
       = Some e /\
     Errorf_w "dcrd.ExistsLiveTicket error: " (errors_New "timeout")
       = Errorf_w "dcrd.ExistsLiveTicket error: " e).
Proof.
  split.
  - apply (proj1 (canTicketVote_answers
                    {| Txid := exampleHash; Confirmations := 257 |}
                    (exampleNode (true, None)) exampleParams []) None).
    reflexivity.
  - apply (proj2 (canTicketVote_answers
                    {| Txid := exampleHash; Confirmations := 300 |}
                    (exampleNode (true, Some (errors_New "timeout"))) exampleParams [])
             false (Errorf_w "dcrd.ExistsLiveTicket error: " (errors_New "timeout"))).
    reflexivity.
Defined.

Lemma canTicketVote_unconfirmed_witness :
  canTicketVote {| Txid := exampleHash; Confirmations := 0 |}
    (exampleNode (false, Some (errors_New "timeout")))
    {| Deployments := ∅; TicketMaturity := 1; TicketExpiry := 4294967295 |} []
  = ((true, None), []).
Proof.
  apply (canTicketVote_unconfirmed {| Txid := exampleHash; Confirmations := 0 |}
           (exampleNode (false, Some (errors_New "timeout")))
           {| Deployments := ∅; TicketMaturity := 1; TicketExpiry := 4294967295 |} []).
  - unfold Params_wf, uint16_mod, uint32_mod. simpl. lia.
  - simpl. lia.
Defined.

Lemma validateSignature_accepts_iff_witness :
  validateSignature plainVerify exampleHash "DsAddr" "DsAlt:hello" "hello"
    (exampleDb (Some {| AltSignAddr := "DsAlt" |}, None)) exampleParams []
  = (None, [AltSignAddrDataCall exampleHash]) /\
  fst (validateSignature plainVerify exampleHash "DsAddr" "DsAlt:hello" "hello"
         (exampleDb (Some {| AltSignAddr := "DsAlt" |}, None)) exampleParams [])
  = None.
Proof.
  pose proof (validateSignature_accepts_iff plainVerify exampleHash
                "DsAddr" "DsAlt:hello" "hello"
                (exampleDb (Some {| AltSignAddr := "DsAlt" |}, None))
                exampleParams []) as [Hiff Halt].
  split.
  - apply (Halt {| AltSignAddr := "DsAlt" |}).
    + vm_compute. intros H. discriminate H.
    + reflexivity.
    + reflexivity.
  - apply Hiff. right. exists {| AltSignAddr := "DsAlt" |}.
    split; reflexivity.
Defined.

Lemma validateSignature_outcomes_witness :
  (plainVerify "DsAddr" "forged" "hello" exampleParams = None /\
   validateSignature plainVerify exampleHash "DsAddr" "forged" "hello"
     (exampleDb (None, None)) exampleParams [] = (None, [])) \/
  (plainVerify "DsAddr" "forged" "hello" exampleParams <> None /\
   snd (validateSignature plainVerify exampleHash "DsAddr" "forged" "hello"
          (exampleDb (None, None)) exampleParams [])
     = [AltSignAddrDataCall exampleHash] /\
   (fst (validateSignature plainVerify exampleHash "DsAddr" "forged" "hello"
           (exampleDb (None, None)) exampleParams []) = None \/
    fst (validateSignature plainVerify exampleHash "DsAddr" "forged" "hello"
           (exampleDb (None, None)) exampleParams [])
      = Some (errors_New "bad signature") \/
    exists e, snd (AltSignAddrData_of (exampleDb (None, None)) exampleHash) = Some e /\
      fst (validateSignature plainVerify exampleHash "DsAddr" "forged" "hello"
             (exampleDb (None, None)) exampleParams [])
      = Some (Errorf_w "db.AltSignAddrData failed: " e))).
Proof.
  exact (validateSignature_outcomes plainVerify exampleHash "DsAddr" "forged" "hello"
           (exampleDb (None, None)) exampleParams []).
Defined.

Lemma decodeTransaction_spec_witness :
  (forall otherFromBytes,
     decodeTransaction hexDecode emptyMsgTx otherFromBytes "zz"
     = (None, Some (InvalidByteError "z"))) /\
  decodeTransaction hexDecode emptyMsgTx plainFromBytes EmptyString
    = (None, Some (errorString "unexpected EOF")) /\
  decodeTransaction hexDecode emptyMsgTx plainFromBytes "01babdbd"
    = (Some {| MsgTx_Version := 1;
               MsgTx_TxOut := [exampleOut Byte.xba; exampleOut Byte.xbd;
                               exampleOut Byte.xbd];
               MsgTx_LockTime := 0; MsgTx_Expiry := 0 |}, None).
Proof.
  split; [ | split ].
  - apply (proj1 (proj2 (decodeTransaction_spec hexDecode emptyMsgTx plainFromBytes
                           "zz"))).
    reflexivity.
  - apply (proj1 (proj2 (proj2 (decodeTransaction_spec hexDecode emptyMsgTx
                                  plainFromBytes EmptyString)) eq_refl)).
    reflexivity.
  - apply (proj2 (proj2 (proj2 (decodeTransaction_spec hexDecode emptyMsgTx
                                  plainFromBytes "01babdbd")) eq_refl)).
    reflexivity.
Defined.

(** ** Entry by entry *)

Lemma accept_entrywise (validator : list (string * string) -> option error)
    (check : string * string -> option error)
    (validator_firstError : forall order, validator order = firstError check order)
    (m : gmap string string) (order : list (string * string)) :
  range_order m order ->
  (validator order = None
   <-> forall key value, m !! key = Some value -> validator [(key, value)] = None).
Proof.
  intros Horder. rewrite validator_firstError, firstError_None, List.Forall_forall.
  split.
  - intros Hall key value Hlookup.
    rewrite validator_firstError, firstError_single. apply Hall.
    apply (range_order_elem m order key value Horder). exact Hlookup.
  - intros Hall [key value] Hin.
    apply (range_order_elem m order key value Horder) in Hin.
    specialize (Hall key value Hin).
    rewrite validator_firstError, firstError_single in Hall. exact Hall.
Qed.

(** X15.  Each validator judges a map entry by entry: the map is accepted,
    in whatever order it is visited, exactly when each of its entries is
    accepted alone.  No entry makes up for, or spoils, another one. *)
Theorem validators_entrywise (Quote : string -> string)
    (DecodeString : string -> list Byte.byte * option error)
    (NewHashFromStr : string -> option (list Byte.byte) * option error)
    (params : Params) (voteVersion : N)
    (m : gmap string string) (order : list (string * string)) :
  range_order m order ->
  (validConsensusVoteChoices Quote params voteVersion order = None
   <-> forall agenda choice, m !! agenda = Some choice ->
         validConsensusVoteChoices Quote params voteVersion [(agenda, choice)] = None) /\
  (validTreasuryPolicy Quote DecodeString order = None
   <-> forall key choice, m !! key = Some choice ->
         validTreasuryPolicy Quote DecodeString [(key, choice)] = None) /\
  (validTSpendPolicy Quote NewHashFromStr order = None
   <-> forall hash choice, m !! hash = Some choice ->
         validTSpendPolicy Quote NewHashFromStr [(hash, choice)] = None).
Proof.
  intros Horder. split; [ | split ].
  - exact (accept_entrywise _ _
             (validConsensusVoteChoices_firstError Quote params voteVersion)
             m order Horder).
  - exact (accept_entrywise _ _
             (validTreasuryPolicy_firstError Quote DecodeString) m order Horder).
  - exact (accept_entrywise _ _
             (validTSpendPolicy_firstError Quote NewHashFromStr) m order Horder).
Qed.

Lemma validators_entrywise_witness :
  validTSpendPolicy plainQuote parseHash [(exampleHash, "no")] = None /\
  (forall hash choice,
     ({[ exampleHash := "no" ]} : gmap string string) !! hash = Some choice ->
     validTSpendPolicy plainQuote parseHash [(hash, choice)] = None).
Proof.
  pose proof (validators_entrywise plainQuote hexDecode parseHash exampleParams 10
                {[ exampleHash := "no" ]} [(exampleHash, "no")]
                (range_order_singleton _ _)) as [_ [_ Hiff]].
  split.
  - apply Hiff. intros hash choice Hlookup.
    apply lookup_singleton_Some in Hlookup. destruct Hlookup as [<- <-].
    reflexivity.
  - apply Hiff. reflexivity.
Defined.

(** ** Ageing of a ticket *)

(** X16.  The answers given without asking the node are stable under the
    passing of blocks in the direction that matters: a ticket answered too
    old at some number of confirmations is answered too old, again without
    a query, at every larger number, and one answered immature is answered
    immature at every smaller number; for all parameters and all nodes. *)
Theorem canTicketVote_stable rawTx rawTx' dcrdClient dcrdClient' netParams log log' :
  snd (canTicketVote rawTx dcrdClient netParams log) = log ->
  (fst (canTicketVote rawTx dcrdClient netParams log) = (false, None) ->
   Confirmations rawTx <= Confirmations rawTx' ->
   canTicketVote rawTx' dcrdClient' netParams log' = ((false, None), log')) /\
  (fst (canTicketVote rawTx dcrdClient netParams log) = (true, None) ->
   Confirmations rawTx' <= Confirmations rawTx ->
   canTicketVote rawTx' dcrdClient' netParams log' = ((true, None), log')).
Proof.
  intros Hlog.
  destruct (canTicketVote_cases rawTx dcrdClient netParams log)
    as [[H1 R] | [[H1 [H2 R]] | [_ [_ R]]]]; rewrite R in *; simpl in *.
  - split; [ | discriminate ]. intros _ Hle.
    destruct (canTicketVote_cases rawTx' dcrdClient' netParams log')
      as [[_ R'] | [[H1' _] | [H1' _]]]; [exact R' | lia | lia].
  - split; [discriminate | ]. intros _ Hle.
    destruct (canTicketVote_cases rawTx' dcrdClient' netParams log')
      as [[H1' _] | [[_ [_ R']] | [_ [H2' _]]]]; [lia | exact R' | lia].
  - destruct (log_grows _ _ Hlog).
Qed.

Lemma canTicketVote_stable_witness :
  canTicketVote {| Txid := exampleHash; Confirmations := 50000 |}
    (exampleNode (true, None)) exampleParams [ExistsLiveTicketCall exampleHash]
  = ((false, None), [ExistsLiveTicketCall exampleHash]) /\
  canTicketVote {| Txid := exampleHash; Confirmations := 3 |}
    (exampleNode (false, None)) exampleParams []
  = ((true, None), []).
Proof.
  split.
  - apply (proj1 (canTicketVote_stable
                    {| Txid := exampleHash; Confirmations := 41218 |}
                    {| Txid := exampleHash; Confirmations := 50000 |}
                    (exampleNode (false, None)) (exampleNode (true, None))
                    exampleParams [] [ExistsLiveTicketCall exampleHash] eq_refl)).
    + reflexivity.
    + simpl. lia.
  - apply (proj2 (canTicketVote_stable
                    {| Txid := exampleHash; Confirmations := 256 |}
                    {| Txid := exampleHash; Confirmations := 3 |}
                    (exampleNode (false, None)) (exampleNode (false, None))
                    exampleParams [] [] eq_refl)).
    + reflexivity.
    + simpl. lia.
Defined.
